(** * Custom field form: validation schema and rendered form

    A shallow embedding of [app/components/custom-fields/form.tsx]:

    - [Js]: the JavaScript values and array operations the file relies on;
    - [Zod]: the parsers of the validation library as the schema uses them
      (string with checks, optional, transform, native enum, array, the
      merge of an object's fields, [safeParse]);
    - [Schema]: [NewCustomFieldFormSchema] and the type of its output;
    - [View]: the element tree that [CustomFieldForm] returns, the hooks it
      reads and the handlers it installs.

    Strings are sequences of code units ([string]); the length that the
    schema compares is the number of units. *)

From Stdlib Require Import ZArith String List Lia.
From stdpp Require Import base option list gmap strings pretty fin_maps.

#[local] Open Scope string_scope.
#[local] Open Scope list_scope.
#[local] Open Scope stdpp_scope.
#[local] Set Warnings "-register-all".

(** ** JavaScript values *)

Module Js.

(** A value as a schema can receive it.  Numbers are kept as integers: the
    schema of this file only ever looks at the type of a number. *)
Inductive Value : Type :=
| JUndefined
| JNull
| JBool (b : bool)
| JNumber (z : Z)
| JString (s : string)
| JArray (items : list Value)
| JObject (fields : gmap string Value).

(** [data[key]]: a property that is not there reads as [undefined]. *)
Definition prop (fields : gmap string Value) (key : string) : Value :=
  default JUndefined (fields !! key).

(** Truthiness of a string: only the empty string is falsy. *)
Definition truthy (s : string) : bool :=
  negb (String.eqb s "").

(** [Array.prototype.splice(start, deleteCount)] without inserted items:
    the removed elements, and the array as it is afterwards.  A negative
    [start] counts from the end; both arguments are clamped to the array. *)
Definition splice {A} (start deleteCount : Z) (arr : list A)
  : list A * list A :=
  let len := Z.of_nat (length arr) in
  let actualStart :=
    if (start <? 0)%Z then Z.max (len + start) 0 else Z.min start len in
  let actualDeleteCount :=
    Z.min (Z.max deleteCount 0) (len - actualStart) in
  let s := Z.to_nat actualStart in
  let d := Z.to_nat actualDeleteCount in
  (take d (drop s arr), take s arr ++ drop (s + d) arr).

End Js.

Import Js.

(** ** The validation library *)

Module Zod.

Inductive ZodParsedType :=
| t_string | t_number | t_boolean | t_undefined | t_null | t_array
| t_object.

Definition getParsedType (data : Value) : ZodParsedType :=
  match data with
  | JUndefined => t_undefined
  | JNull => t_null
  | JBool _ => t_boolean
  | JNumber _ => t_number
  | JString _ => t_string
  | JArray _ => t_array
  | JObject _ => t_object
  end.

(** What a schema expected when the type of the input is wrong: a parsed
    type, or (native enum) one of a list of values. *)
Inductive Expected :=
| e_type (t : ZodParsedType)
| e_values (vs : list string).

Inductive ZodIssueCode :=
| invalid_type (expected : Expected) (received : ZodParsedType)
| invalid_enum_value (received : Value) (options : list string)
| too_small (minimum : nat).

Inductive PathItem :=
| Key (k : string)
| Idx (i : nat).

#[global] Instance PathItem_eq_dec : EqDecision PathItem.
Proof. solve_decision. Defined.

(** An issue as a parser raises it; the message is there only when the
    schema gives one. *)
Record IssueData := {
  code : ZodIssueCode;
  path : list PathItem;
  message : option string
}.

(** An issue as [safeParse] reports it. *)
Record ZodIssue := {
  issue_code : ZodIssueCode;
  issue_path : list PathItem;
  issue_message : string
}.

(** The error map gives the message of an issue that has none of its own. *)
Definition makeIssue (errorMap : IssueData -> string) (d : IssueData)
  : ZodIssue :=
  {| issue_code := code d;
     issue_path := path d;
     issue_message := default (errorMap d) (message d) |}.

Inductive SyncParseReturn (A : Type) :=
| OK (value : A)
| DIRTY (value : A)
| INVALID.
Arguments OK {A} value.
Arguments DIRTY {A} value.
Arguments INVALID {A}.

(** A parser returns its status and the issues it added to the context. *)
Definition Parsed (A : Type) : Type := SyncParseReturn A * list IssueData.

Definition ZodType (Output : Type) : Type :=
  list PathItem -> Value -> Parsed Output.

Definition isValid {A} (r : SyncParseReturn A) : bool :=
  match r with OK _ => true | _ => false end.

Definition issues {A} (p : Parsed A) : list IssueData := snd p.

(** Merging the status of the parts of an object or an array: one aborted
    part aborts the whole, one dirty part makes it dirty. *)
Definition pure {A} (a : A) : Parsed A := (OK a, []).

Definition ap {A B} (pf : Parsed (A -> B)) (px : Parsed A) : Parsed B :=
  (match fst pf, fst px with
   | INVALID, _ | _, INVALID => INVALID
   | OK f, OK x => OK (f x)
   | OK f, DIRTY x | DIRTY f, OK x | DIRTY f, DIRTY x => DIRTY (f x)
   end,
   snd pf ++ snd px).

Notation "pf <*> px" := (ap pf px) (at level 61, left associativity).

(** [z.string()] with the checks added to it; [.min(value, msg)] is the
    only one used. *)
Inductive ZodStringCheck :=
| check_min (value : nat) (msg : string).

Definition runCheck (p : list PathItem) (s : string) (c : ZodStringCheck)
  : list IssueData :=
  match c with
  | check_min n msg =>
      if (String.length s <? n)%nat
      then [ {| code := too_small n; path := p; message := Some msg |} ]
      else []
  end.

Definition ZodString (checks : list ZodStringCheck) : ZodType string :=
  fun p data =>
    match data with
    | JString s =>
        let found := flat_map (runCheck p s) checks in
        (match found with [] => OK s | _ => DIRTY s end, found)
    | _ =>
        (INVALID,
         [ {| code := invalid_type (e_type t_string) (getParsedType data);
              path := p; message := None |} ])
    end.

(** [.optional()]: [undefined] is accepted as it is ([None]). *)
Definition optional {A} (inner : ZodType A) : ZodType (option A) :=
  fun p data =>
    match data with
    | JUndefined => (OK None, [])
    | _ =>
        let r := inner p data in
        (match fst r with
         | OK v => OK (Some v)
         | DIRTY v => DIRTY (Some v)
         | INVALID => INVALID
         end, snd r)
    end.

(** [.transform(f)]: [f] is applied to what the inner schema returns.  The
    value of a result that is not valid is never read by [safeParse]. *)
Definition transform {A B} (inner : ZodType A) (f : A -> B) : ZodType B :=
  fun p data =>
    let r := inner p data in
    (match fst r with
     | OK v => OK (f v)
     | DIRTY v => DIRTY (f v)
     | INVALID => INVALID
     end, snd r).

(** [z.nativeEnum(E)] for an enum [E] whose values are strings: [values]
    lists them, [of_value] reads one back. *)
Definition ZodNativeEnum {E} (values : list string)
    (of_value : string -> option E) : ZodType E :=
  fun p data =>
    match data with
    | JString s =>
        match of_value s with
        | Some e => (OK e, [])
        | None =>
            (INVALID,
             [ {| code := invalid_enum_value data values;
                  path := p; message := None |} ])
        end
    | JNumber _ =>
        (INVALID,
         [ {| code := invalid_enum_value data values;
              path := p; message := None |} ])
    | _ =>
        (INVALID,
         [ {| code := invalid_type (e_values values) (getParsedType data);
              path := p; message := None |} ])
    end.

(** [z.array(element)]: every item is parsed at its index. *)
Fixpoint parseItems {A} (element : ZodType A) (p : list PathItem)
    (i : nat) (items : list Value) : Parsed (list A) :=
  match items with
  | [] => pure []
  | x :: rest =>
      pure cons <*> element (p ++ [Idx i]) x
                <*> parseItems element p (S i) rest
  end.

Definition ZodArray {A} (element : ZodType A) : ZodType (list A) :=
  fun p data =>
    match data with
    | JArray items => parseItems element p 0 items
    | _ =>
        (INVALID,
         [ {| code := invalid_type (e_type t_array) (getParsedType data);
              path := p; message := None |} ])
    end.

Inductive SafeParseReturn (A : Type) :=
| Success (data : A)
| Failure (error : list ZodIssue).
Arguments Success {A} data.
Arguments Failure {A} error.

Definition safeParse {A} (errorMap : IssueData -> string)
    (schema : ZodType A) (data : Value) : SafeParseReturn A :=
  let r := schema [] data in
  match fst r with
  | OK v => Success v
  | _ => Failure (map (makeIssue errorMap) (snd r))
  end.

(** [schema.safeParse(data).success] *)
Definition accepts {A} (schema : ZodType A) (data : Value) : bool :=
  isValid (fst (schema [] data)).

(** The constructors of schemas, named as the source calls them. *)
Module z.
Definition string : ZodType String.string := ZodString [].
Definition nativeEnum {E} := @ZodNativeEnum E.
Definition array {A} := @ZodArray A.
End z.

End Zod.

Import Zod.

(** ** The schema of the form *)

(** Modelled from the spec: the enum [CustomFieldType] of the database
    client, which is generated outside this file.  It is the fixed closed set
    of five tokens; they are the keys that [FIELD_TYPE_DESCRIPTION] must list
    one by one, and are kept in that order. *)
Inductive CustomFieldType :=
| TEXT | OPTION | BOOLEAN | DATE | MULTILINE_TEXT.

#[global] Instance CustomFieldType_eq_dec : EqDecision CustomFieldType.
Proof. solve_decision. Defined.

Module CustomFieldTypes.

Definition members : list CustomFieldType :=
  [TEXT; OPTION; BOOLEAN; DATE; MULTILINE_TEXT].

(** A member is the string of its own name. *)
Definition value (t : CustomFieldType) : string :=
  match t with
  | TEXT => "TEXT"
  | OPTION => "OPTION"
  | BOOLEAN => "BOOLEAN"
  | DATE => "DATE"
  | MULTILINE_TEXT => "MULTILINE_TEXT"
  end.

Definition values : list string := map value members.

Definition of_value (s : string) : option CustomFieldType :=
  find (fun t => String.eqb (value t) s) members.

End CustomFieldTypes.

Module Schema.

(** What the schema returns for a valid submission; [None] is [null] for
    [helpText] and a key that is left out for [options]. *)
Record NewCustomFieldForm := mk {
  name : string;
  helpText : option string;
  type : CustomFieldType;
  required : bool;
  active : bool;
  organizationId : string;
  options : option (list string)
}.

(** The schema of each key, [NewCustomFieldFormSchema.shape]. *)
Module shape.

Definition name : ZodType string :=
  ZodString [check_min 2 "Name is required"].

Definition helpText : ZodType (option string) :=
  transform (optional z.string)
    (fun val =>
       match val with
       | Some s => if truthy s then Some s else None
       | None => None
       end).

Definition type : ZodType CustomFieldType :=
  z.nativeEnum CustomFieldTypes.values CustomFieldTypes.of_value.

Definition required : ZodType bool :=
  transform (optional z.string)
    (fun val =>
       match val with
       | Some s => if String.eqb s "on" then true else false
       | None => false
       end).

Definition active : ZodType bool :=
  transform (optional z.string)
    (fun val =>
       match val with
       | Some s => if String.eqb s "on" then true else false
       | None => false
       end).

Definition organizationId : ZodType string := z.string.

Definition options : ZodType (option (list string)) :=
  optional (z.array z.string).

End shape.

(** What the schema of a key returns for that key of an object parsed at
    the path [p]. *)
Definition at_key {A} (p : list PathItem) (fields : gmap string Value)
    (k : string) (schema : ZodType A) : Parsed A :=
  schema (p ++ [Key k]) (prop fields k).

(** [z.object({...})]: every key of the shape is parsed, in the order of the
    shape, at the path of its name; keys that the shape does not list are
    dropped. *)
Definition NewCustomFieldFormSchema : ZodType NewCustomFieldForm :=
  fun p data =>
    match data with
    | JObject fields =>
        let at_key {A} := @at_key A p fields in
        pure mk
          <*> at_key "name" shape.name
          <*> at_key "helpText" shape.helpText
          <*> at_key "type" shape.type
          <*> at_key "required" shape.required
          <*> at_key "active" shape.active
          <*> at_key "organizationId" shape.organizationId
          <*> at_key "options" shape.options
    | _ =>
        (INVALID,
         [ {| code := invalid_type (e_type t_object) (getParsedType data);
              path := p; message := None |} ])
    end.

End Schema.

(** ** Element trees *)

Module Jsx.

(** The value of an attribute; [F] names the functions of the component. *)
Inductive Attr (F N : Type) :=
| AUndef
| AStr (s : string)
| ABool (b : bool)
| ANum (n : nat)
| AStrs (l : list string)
| AFun (f : F)
| ANode (n : N).
Arguments AUndef {F N}.
Arguments AStr {F N} s.
Arguments ABool {F N} b.
Arguments ANum {F N} n.
Arguments AStrs {F N} l.
Arguments AFun {F N} f.
Arguments ANode {F N} n.

(** What a component returns: text, nothing ([null]), a list of nodes (a
    fragment, or an array given as a child), or an element with its
    attributes and children. *)
Inductive Node (F : Type) :=
| Text (s : string)
| Null
| Fragment (children : list (Node F))
| Elem (tag : string) (attrs : list (string * Attr F (Node F)))
       (children : list (Node F)).
Arguments Text {F} s.
Arguments Null {F}.
Arguments Fragment {F} children.
Arguments Elem {F} tag attrs children.

(** An attribute that is not given reads as [undefined]. *)
Definition get_attr {F N} (k : string) (attrs : list (string * Attr F N))
  : Attr F N :=
  match find (fun kv => String.eqb (fst kv) k) attrs with
  | Some kv => snd kv
  | None => AUndef
  end.

(** Every element of a tree, parents first, in the order of the source;
    the nodes given as attributes are searched too. *)
Fixpoint elements {F} (n : Node F) : list (Node F) :=
  match n with
  | Text _ | Null => []
  | Fragment children => flat_map elements children
  | Elem _ attrs children =>
      n :: flat_map (fun kv => match snd kv with
                               | ANode m => elements m
                               | _ => []
                               end) attrs
        ++ flat_map elements children
  end.

Definition tag_of {F} (n : Node F) : string :=
  match n with Elem tag _ _ => tag | _ => "" end.

Definition attr_of {F} (k : string) (n : Node F) : Attr F (Node F) :=
  match n with Elem _ attrs _ => get_attr k attrs | _ => AUndef end.

Definition children_of {F} (n : Node F) : list (Node F) :=
  match n with
  | Elem _ _ children => children
  | Fragment children => children
  | _ => []
  end.

Definition with_tag {F} (tag : string) (n : Node F) : list (Node F) :=
  List.filter (fun e => String.eqb (tag_of e) tag) (elements n).

(** The elements that carry a [name], with that name. *)
Definition named {F} (n : Node F) : list (string * string) :=
  omap (fun e => match attr_of "name" e with
                 | AStr nm => Some (tag_of e, nm)
                 | _ => None
                 end) (elements n).

(** The hidden inputs of the tree, as the pairs of a name and a value that
    they add to a submission. *)
Definition hidden_fields {F} (n : Node F) : list (string * string) :=
  omap (fun e => match tag_of e, attr_of "type" e, attr_of "name" e,
                       attr_of "value" e with
                 | "input", AStr "hidden", AStr nm, AStr v => Some (nm, v)
                 | _, _, _, _ => None
                 end) (elements n).

(** The names that a submission of the tree carries: those of the elements
    that have a name, but for the elements that are rendered disabled, which
    a form leaves out of its submission. *)
Definition submitted_names {F} (n : Node F) : list string :=
  omap (fun e => match attr_of "name" e, attr_of "disabled" e with
                 | AStr nm, ABool true => None
                 | AStr nm, _ => Some nm
                 | _, _ => None
                 end) (elements n).

(** The first element of the tree with a given [name]. *)
Definition by_name {F} (nm : string) (n : Node F) : option (Node F) :=
  find (fun e => match attr_of "name" e with
                 | AStr s => String.eqb s nm
                 | _ => false
                 end) (elements n).

End Jsx.

(** ** The form library: names of fields and the errors of the last
    validation *)

Module Zorm.

(** [zo.fields.<key>()]: a field of the object is named by its key. *)
Definition fields (key : string) : string := key.

(** [zo.fields.options(i)()]: the [i]-th item of an array field is named
    by the key and the index in brackets. *)
Definition fields_options (i : nat) : string :=
  fields "options" +:+ "[" +:+ pretty i +:+ "]".

(** [zo.errors.<field>()]: the first issue of the last validation at the
    path of the field, if that validation failed. *)
Definition errors {A} (validation : option (SafeParseReturn A))
    (p : list PathItem) : option ZodIssue :=
  match validation with
  | Some (Failure error) =>
      find (fun i => bool_decide (issue_path i = p)) error
  | _ => None
  end.

End Zorm.

(** ** The component *)

Module View.

Import Jsx.

Inductive NavigationState := idle | submitting | loading.

(** Modelled from the spec: [isFormProcessing] of [~/utils], which is not
    part of this file.  The navigation reports one of three phases, and a
    submission is in flight in the phases submitting and loading. *)
Definition isFormProcessing (state : NavigationState) : bool :=
  match state with
  | idle => false
  | submitting | loading => true
  end.

(** Arrays live in a store and are known by their reference: the array of
    options is mutated in place by [onRemove]. *)
Abbreviation loc := nat.

(** The props; [None] is a prop that is not passed.  [helpText] can also be
    [null] ([Some None]); [options] is a reference to the caller's array. *)
Module Props.
Record t := mk {
  name : option string;
  helpText : option (option string);
  required : option bool;
  type : option CustomFieldType;
  active : option bool;
  options : option loc;
  isEdit : option bool
}.
End Props.

(** What the hooks other than [useState] return in a render. *)
Record Env := {
  navigation_state : NavigationState;
  validation : option (SafeParseReturn Schema.NewCustomFieldForm);
  organizationId : string
}.

(** The store and the two pieces of state of the component. *)
Record World := {
  heap : gmap loc (list string);
  options : loc;
  selectedType : CustomFieldType
}.

Definition deref (heap : gmap loc (list string)) (r : loc) : list string :=
  default [] (heap !! r).

(** The functions that the component hands to its elements. *)
Inductive Callback :=
| zo_ref
| updateTitle
| onValueChange
| onRemove_cb
| onAdd_cb.

Definition FIELD_TYPE_DESCRIPTION (t : CustomFieldType) : string :=
  match t with
  | TEXT => "A place to store short information for your asset. For instance: Serial numbers, notes or anything you wish. No input validation. Any text is acceptable."
  | OPTION => "A dropdown list of predefined options."
  | BOOLEAN => "A true/false or yes/no value."
  | DATE => "A date picker for selecting a date."
  | MULTILINE_TEXT => "A place to store longer, multiline information for your asset. For instance: Descriptions, comments, or detailed notes."
  end.

(** *** State *)

(** First render: [useState(opts || [])] and [useState(type || "TEXT")].
    Without [opts] the state is a new empty array. *)
Definition mount (props : Props.t) (heap : gmap loc (list string)) : World :=
  match Props.options props with
  | Some opts =>
      {| heap := heap; options := opts;
         selectedType := default TEXT (Props.type props) |}
  | None =>
      let r := fresh (dom heap) in
      {| heap := <[r := []]> heap; options := r;
         selectedType := default TEXT (Props.type props) |}
  end.

Definition setSelectedType (val : CustomFieldType) (w : World) : World :=
  {| heap := heap w; options := options w; selectedType := val |}.

(** [options.splice(i, 1); setOptions([...options])]: the array of the
    current state loses an entry in place, and the next state is a copy of
    what is left. *)
Definition onRemove (i : Z) (w : World) : World :=
  let spliced := snd (splice i 1 (deref (heap w) (options w))) in
  let heap1 := <[options w := spliced]> (heap w) in
  let r := fresh (dom heap1) in
  {| heap := <[r := deref heap1 (options w)]> heap1;
     options := r;
     selectedType := selectedType w |}.

(** [setOptions([...options, o])] *)
Definition onAdd (o : string) (w : World) : World :=
  let r := fresh (dom (heap w)) in
  {| heap := <[r := deref (heap w) (options w) ++ [o]]> (heap w);
     options := r;
     selectedType := selectedType w |}.

Inductive Event :=
| ValueChange (val : CustomFieldType)
| Remove (i : Z)
| Add (o : string).

Definition handle (e : Event) (w : World) : World :=
  match e with
  | ValueChange val => setSelectedType val w
  | Remove i => onRemove i w
  | Add o => onAdd o w
  end.

(** *** Render *)

Section Render.

(** The labels of the types, [FIELD_TYPE_NAME] of [~/utils/custom-fields],
    with its keys in their order, and [zodFieldIsRequired] of
    [~/utils/zod]: neither is part of this file. *)
Variable FIELD_TYPE_NAME : list (string * string).
Variable zodFieldIsRequired : forall A, ZodType A -> bool.

Definition field_type_name (value : string) : string :=
  match find (fun kv => String.eqb (fst kv) value) FIELD_TYPE_NAME with
  | Some kv => snd kv
  | None => ""
  end.

Definition error_attr (issue : option ZodIssue)
  : Attr Callback (Node Callback) :=
  match issue with
  | Some i => AStr (issue_message i)
  | None => AUndef
  end.

Definition checked_attr (b : option bool)
  : Attr Callback (Node Callback) :=
  match b with
  | Some v => ABool v
  | None => AUndef
  end.

(** [Object.keys(FIELD_TYPE_NAME).map(...)]: one item per type. *)
Definition select_item (kv : string * string) : Node Callback :=
  let value := fst kv in
  Elem "SelectItem"
    [("value", AStr value); ("key", AStr value)]
    [ Elem "span"
        [("className", AStr "mr-4 text-[14px] text-gray-700")]
        [Text (field_type_name value)] ].

Definition select_items : list (Node Callback) :=
  map select_item FIELD_TYPE_NAME.

(** [options.map((op, i) => ...)]: one hidden input per option. *)
Definition hidden_input (i : nat) (op : string) : Node Callback :=
  Elem "input"
    [("key", ANum i);
     ("type", AStr "hidden");
     ("name", AStr (Zorm.fields_options i));
     ("value", AStr op)]
    [].

Definition hidden_inputs (options : list string)
  : list (Node Callback) :=
  imap hidden_input options.

Definition CustomFieldForm (props : Props.t) (env : Env) (w : World)
  : Node Callback :=
  let name := Props.name props in
  let helpText := Props.helpText props in
  let required := Props.required props in
  let active := Props.active props in
  let isEdit := default false (Props.isEdit props) in
  let disabled := isFormProcessing (navigation_state env) in
  let options := deref (heap w) (options w) in
  let selectedType := selectedType w in
  Elem "Form"
    [("ref", AFun zo_ref); ("method", AStr "post");
     ("className", AStr "flex w-full flex-col gap-2");
     ("encType", AStr "multipart/form-data")]
    [ Elem "FormRow"
        [("rowLabel", AStr "Name");
         ("className", AStr "border-b-0 pb-[10px]");
         ("required", ABool (zodFieldIsRequired _ Schema.shape.name))]
        [ Elem "Input"
            [("label", AStr "Name");
             ("hideLabel", ABool true);
             ("name", AStr (Zorm.fields "name"));
             ("disabled", ABool disabled);
             ("error",
              error_attr (Zorm.errors (validation env) [Key "name"]));
             ("autoFocus", ABool true);
             ("onChange", AFun updateTitle);
             ("className", AStr "w-full");
             ("defaultValue",
              AStr (match name with
                    | Some s => if truthy s then s else ""
                    | None => ""
                    end));
             ("placeholder", AStr "Choose a field name");
             ("required",
              ABool (zodFieldIsRequired _ Schema.shape.name))]
            [] ];
      Elem "div" []
        [ Elem "label" [("className", AStr "lg:hidden")] [Text "Type"];
          Elem "FormRow"
            [("rowLabel", AStr "Type");
             ("className", AStr "border-b-0 pb-[10px] pt-[6px]");
             ("required",
              ABool (zodFieldIsRequired _ Schema.shape.type))]
            [ Elem "Select"
                [("name", AStr "type");
                 ("defaultValue",
                  AStr (CustomFieldTypes.value selectedType));
                 ("disabled", ABool disabled);
                 ("onValueChange", AFun onValueChange)]
                [ Elem "SelectTrigger"
                    [("disabled", ABool isEdit);
                     ("className", AStr "px-3.5 py-3");
                     ("placeholder", AStr "Choose a field type")]
                    [ Elem "SelectValue" [] [] ];
                  Elem "SelectContent"
                    [("position", AStr "popper");
                     ("className", AStr "w-full min-w-[300px]");
                     ("align", AStr "start")]
                    [ Elem "div"
                        [("className",
                          AStr " max-h-[320px] overflow-auto")]
                        [ Fragment select_items ] ] ];
              Elem "div"
                [("className",
                  AStr "mt-2 flex-1 grow rounded-xl border px-6 py-5 text-[14px] text-gray-600 ")]
                [ Elem "p" []
                    [Text (FIELD_TYPE_DESCRIPTION selectedType)] ] ];
          match selectedType with
          | OPTION =>
              Fragment
                [ Elem "FormRow"
                    [("rowLabel", AStr "");
                     ("className", AStr "mt-0 border-b-0 pt-0")]
                    [ Elem "OptionBuilder"
                        [("onRemove", AFun onRemove_cb);
                         ("options", AStrs options);
                         ("onAdd", AFun onAdd_cb)]
                        [];
                      Fragment (hidden_inputs options) ] ]
          | _ => Null
          end ];
      Elem "FormRow"
        [("rowLabel", AStr ""); ("className", AStr "border-b-0 pt-2")]
        [ Elem "div" [("className", AStr "flex items-center gap-3")]
            [ Elem "Switch"
                [("name", AStr (Zorm.fields "required"));
                 ("disabled", ABool disabled);
                 ("defaultChecked", checked_attr required)]
                [];
              Elem "label"
                [("className",
                  AStr "text-base font-medium text-gray-700")]
                [Text "Required"] ] ];
      Elem "FormRow"
        [("rowLabel", AStr ""); ("className", AStr "border-b-0 pt-2")]
        [ Elem "div" [("className", AStr "flex items-center gap-3")]
            [ Elem "Switch"
                [("name", AStr (Zorm.fields "active"));
                 ("disabled", ABool disabled);
                 ("defaultChecked",
                  ABool (match active with
                         | None => true
                         | Some b => b
                         end))]
                [];
              Elem "div" []
                [ Elem "label"
                    [("className",
                      AStr "text-base font-medium text-gray-700")]
                    [Text "Active"];
                  Elem "p"
                    [("className", AStr "text-[14px] text-gray-600")]
                    [Text "Deactivating a field will no longer show it on the asset form and page"] ] ] ];
      Elem "div" []
        [ Elem "FormRow"
            [("rowLabel", AStr "Help Text");
             ("subHeading",
              ANode (Elem "p" []
                [Text "This text will function as a help text that is visible when filling the field"]));
             ("required",
              ABool (zodFieldIsRequired _ Schema.shape.helpText))]
            [ Elem "Input"
                [("inputType", AStr "textarea");
                 ("label", AStr "Help Text");
                 ("name", AStr (Zorm.fields "helpText"));
                 ("defaultValue",
                  AStr (match helpText with
                        | Some (Some s) => if truthy s then s else ""
                        | _ => ""
                        end));
                 ("placeholder",
                  AStr "Add a help text for your custom field.");
                 ("disabled", ABool disabled);
                 ("data-test-id", AStr "fieldHelpText");
                 ("className", AStr "w-full");
                 ("hideLabel", ABool true);
                 ("required",
                  ABool (zodFieldIsRequired _ Schema.shape.helpText))]
                [] ] ];
      Elem "input"
        [("type", AStr "hidden");
         ("name", AStr (Zorm.fields "organizationId"));
         ("value", AStr (organizationId env))]
        [];
      Elem "div" [("className", AStr "text-right")]
        [ Elem "Button"
            [("type", AStr "submit"); ("disabled", ABool disabled)]
            [ if disabled then Elem "Spinner" [] [] else Text "Save" ] ]
    ].

End Render.

(** The controls that are given the [disabled] of the component. *)
Definition controls (n : Node Callback) : list (Node Callback) :=
  List.filter
    (fun e => existsb (String.eqb (tag_of e))
                      ["Input"; "Select"; "Switch"; "Button"])
    (elements n).

(** The state refers to an array of the store. *)
Definition wf (w : World) : Prop := options w ∈ dom (heap w).

End View.

(** ** Concrete inputs

    The values on which the statements of the second part are run. *)

Module Samples.

Import View.

Definition errorMap (d : IssueData) : string := "Invalid input".

Definition FIELD_TYPE_NAME : list (string * string) :=
  [("TEXT", "Text"); ("MULTILINE_TEXT", "Multiline text");
   ("BOOLEAN", "Yes / No"); ("DATE", "Date"); ("OPTION", "Option")].

(** A field is required when its schema does not accept [undefined]. *)
Definition zodFieldIsRequired (A : Type) (field : ZodType A) : bool :=
  negb (accepts field JUndefined).

(** A submission with the name, the type and the organization only: no
    switch is checked and no help text is sent. *)
Definition minimal : gmap string Value :=
  <["name" := JString "Serial number"]>
    (<["type" := JString "TEXT"]>
       (<["organizationId" := JString "org_1"]> ∅)).

(** A submission with an empty name and every other field valid. *)
Definition blank_name : gmap string Value :=
  <["name" := JString ""]>
    (<["helpText" := JString ""]>
       (<["type" := JString "DATE"]>
          (<["active" := JString "on"]>
             (<["organizationId" := JString "org_1"]> ∅)))).

(** A submission with both switches checked and two options. *)
Definition full : gmap string Value :=
  <["name" := JString "Colour"]>
    (<["helpText" := JString "Pick one"]>
       (<["type" := JString "OPTION"]>
          (<["required" := JString "on"]>
             (<["active" := JString "on"]>
                (<["organizationId" := JString "org_1"]>
                   (<["options" := JArray [JString "red"; JString "blue"]]>
                      ∅)))))).

(** A submission whose type is not a token of the enum. *)
Definition bad_type : gmap string Value :=
  <["type" := JString "NUMBER"]> minimal.

(** No prop is passed: a new field. *)
Definition create : Props.t :=
  Props.mk None None None None None None None.

(** An existing field of type [DATE] is edited. *)
Definition edit : Props.t :=
  Props.mk (Some "Purchased") (Some None) (Some false) (Some DATE)
           (Some true) None (Some true).

Definition env (state : NavigationState) : Env :=
  {| navigation_state := state;
     validation := None;
     organizationId := "org_1" |}.

(** The state after the type [OPTION] is selected and three options are
    added to a new field. *)
Definition three_options : World :=
  onAdd "blue" (onAdd "green" (onAdd "red"
    (setSelectedType OPTION (mount create ∅)))).

Definition form := CustomFieldForm FIELD_TYPE_NAME zodFieldIsRequired.

End Samples.

(** ** Predicates of the proofs *)

(** A schema is steady when a valid result comes without issues and does
    not depend on the path at which the value is parsed. *)
Class Steady {A} (schema : ZodType A) : Prop :=
  steady : forall p data x,
    fst (schema p data) = OK x -> forall p', schema p' data = (OK x, []).

(** The items of the select are [SelectItem]s and their [span]s. *)
Definition is_item (e : Jsx.Node View.Callback) : Prop :=
  (exists v cs,
     e = Jsx.Elem "SelectItem"
           [("value", Jsx.AStr v); ("key", Jsx.AStr v)] cs) \/
  (exists cs,
     e = Jsx.Elem "span"
           [("className", Jsx.AStr "mr-4 text-[14px] text-gray-700")] cs).

(** ** Sequences of events *)

(** The state after the handlers have run for a list of events, first
    event first. *)
Definition run (events : list View.Event) (w : View.World) : View.World :=
  fold_left (fun w e => View.handle e w) events w.

(** ** More predicates of the proofs *)

(** A schema reports when a result that is not valid always comes with an
    issue. *)
Class Reporting {A} (schema : ZodType A) : Prop :=
  reporting : forall p data,
    isValid (fst (schema p data)) = false -> snd (schema p data) <> [].

(** A schema is local when its issues are all at the path at which the
    value is parsed. *)
Class Local {A} (schema : ZodType A) : Prop :=
  local : forall p data,
    Forall (fun d => path d = p) (snd (schema p data)).

(** What the schema of a string reports for one item of an array. *)
Definition item_issues (p : list PathItem) (i : nat) (v : Js.Value)
  : list IssueData :=
  match v with
  | Js.JString _ => []
  | _ =>
      [ {| code := invalid_type (e_type t_string) (getParsedType v);
           path := p ++ [Idx i]; message := None |} ]
  end.

(** The keys of the shape of the schema, in its order. *)
Definition shape_keys : list string :=
  ["name"; "helpText"; "type"; "required"; "active"; "organizationId";
   "options"].

(** ** More concrete inputs *)

Module MoreSamples.

Import View.

(** A submission with a number for a name, a type that is no token, no
    organization, and options of which the second and the third are not
    strings. *)
Definition garbled : gmap string Js.Value :=
  <["name" := Js.JNumber 3]>
    (<["type" := Js.JString "NUMBER"]>
       (<["options" :=
            Js.JArray [Js.JString "red"; Js.JNull; Js.JNumber 2]]> ∅)).

(** A submission with a name of one code unit. *)
Definition short_name : gmap string Js.Value :=
  <["name" := Js.JString "x"]> Samples.minimal.

(** The environment after a submission was validated. *)
Definition validated (fields : gmap string Js.Value) : Env :=
  {| navigation_state := idle;
     validation :=
       Some (safeParse Samples.errorMap Schema.NewCustomFieldFormSchema
               (Js.JObject fields));
     organizationId := "org_1" |}.

(** The props of a field that is edited, with its options in the array at
    reference 0 of the store [caller_heap]. *)
Definition edit_options : Props.t :=
  Props.mk (Some "Colour") None None (Some OPTION) None (Some 0) (Some true).

Definition caller_heap : gmap nat (list string) :=
  <[0 := ["red"; "green"; "blue"]]> ∅.

End MoreSamples.

(** * Part two: facts and claims *)

Import Schema.

(** * Facts about the parsers *)

Section Parsers.

Context {A B : Type}.

Lemma ap_issues (pf : Parsed (A -> B)) (px : Parsed A) :
  snd (ap pf px) = snd pf ++ snd px.
Proof. reflexivity. Qed.

Lemma ap_valid (pf : Parsed (A -> B)) (px : Parsed A) f x :
  fst pf = OK f -> fst px = OK x -> fst (ap pf px) = OK (f x).
Proof. unfold ap; simpl. intros -> ->. reflexivity. Qed.

Lemma ap_valid_inv (pf : Parsed (A -> B)) (px : Parsed A) y :
  fst (ap pf px) = OK y ->
  exists f x, fst pf = OK f /\ fst px = OK x /\ y = f x.
Proof.
  unfold ap; simpl.
  destruct (fst pf) as [f|f|], (fst px) as [x|x|]; try discriminate.
  intros [= <-]. eauto.
Qed.

Lemma ap_aborted_l (pf : Parsed (A -> B)) (px : Parsed A) :
  fst pf = INVALID -> fst (ap pf px) = INVALID.
Proof. unfold ap; simpl. intros ->. reflexivity. Qed.

Lemma ap_aborted_r (pf : Parsed (A -> B)) (px : Parsed A) :
  fst px = INVALID -> fst (ap pf px) = INVALID.
Proof. unfold ap; simpl. intros ->. destruct (fst pf); reflexivity. Qed.

Lemma ap_not_valid_l (pf : Parsed (A -> B)) (px : Parsed A) :
  isValid (fst pf) = false -> isValid (fst (ap pf px)) = false.
Proof.
  unfold ap; simpl. destruct (fst pf), (fst px); simpl; congruence.
Qed.

Lemma ap_not_valid_r (pf : Parsed (A -> B)) (px : Parsed A) :
  isValid (fst px) = false -> isValid (fst (ap pf px)) = false.
Proof.
  unfold ap; simpl. destruct (fst pf), (fst px); simpl; congruence.
Qed.

End Parsers.

Lemma runCheck_nil p p' s c : runCheck p s c = [] -> runCheck p' s c = [].
Proof.
  destruct c as [n msg]; simpl. destruct (String.length s <? n)%nat; congruence.
Qed.

Lemma checks_nil p p' s checks :
  flat_map (runCheck p s) checks = [] -> flat_map (runCheck p' s) checks = [].
Proof.
  induction checks as [|c checks IH]; simpl; [reflexivity|].
  intros [Hc Hrest]%app_eq_nil.
  rewrite (runCheck_nil _ p' _ _ Hc), (IH Hrest). reflexivity.
Qed.

#[global] Instance ZodString_steady checks : Steady (ZodString checks).
Proof.
  intros p data x H p'. destruct data; simpl in *; try discriminate.
  destruct (flat_map (runCheck p s) checks) eqn:E; [|discriminate].
  injection H as <-. rewrite (checks_nil _ p' _ _ E). reflexivity.
Qed.

#[global] Instance optional_steady {A} (inner : ZodType A) :
  Steady inner -> Steady (optional inner).
Proof.
  intros Hin p data x H p'. unfold optional in *.
  destruct data; simpl in *;
    try (injection H as <-; reflexivity);
    (destruct (fst (inner p _)) as [v|v|] eqn:E; try discriminate;
     injection H as <-; rewrite (Hin _ _ _ E p'); reflexivity).
Qed.

#[global] Instance transform_steady {A B} (inner : ZodType A) (f : A -> B) :
  Steady inner -> Steady (transform inner f).
Proof.
  intros Hin p data x H p'. unfold transform in *; simpl in *.
  destruct (fst (inner p data)) as [v|v|] eqn:E; try discriminate.
  injection H as <-. rewrite (Hin _ _ _ E p'). reflexivity.
Qed.

#[global] Instance ZodNativeEnum_steady {E} values (of_value : string -> option E) :
  Steady (ZodNativeEnum values of_value).
Proof.
  intros p data x H p'. destruct data; simpl in *; try discriminate.
  destruct (of_value s); simpl in *; [|discriminate].
  injection H as <-. reflexivity.
Qed.

Lemma parseItems_steady {A} (element : ZodType A) `{!Steady element} items :
  forall p i x, fst (parseItems element p i items) = OK x ->
  forall p' i', parseItems element p' i' items = (OK x, []).
Proof.
  induction items as [|v items IH]; intros p i x H p' i';
    cbn [parseItems] in *.
  - injection H as <-. reflexivity.
  - apply ap_valid_inv in H as (f & xs & Hf & Hxs & ->).
    apply ap_valid_inv in Hf as (g & y & Hg & Hy & ->).
    injection Hg as <-.
    rewrite (steady _ _ _ Hy (p' ++ [Idx i'])), (IH _ _ _ Hxs p' (S i')).
    reflexivity.
Qed.

#[global] Instance ZodArray_steady {A} (element : ZodType A) :
  Steady element -> Steady (ZodArray element).
Proof.
  intros Hel p data x H p'. destruct data; simpl in *; try discriminate.
  eapply parseItems_steady; eauto.
Qed.

Lemma accepts_steady {A} (schema : ZodType A) `{!Steady schema} data :
  accepts schema data = true ->
  exists x, forall p, schema p data = (OK x, []).
Proof.
  unfold accepts. destruct (fst (schema [] data)) as [x| |] eqn:E;
    try discriminate.
  intros _. exists x. intros p. eapply steady; eauto.
Qed.

#[global] Instance name_steady : Steady Schema.shape.name := _.
#[global] Instance helpText_steady : Steady Schema.shape.helpText := _.
#[global] Instance type_steady : Steady Schema.shape.type := _.
#[global] Instance required_steady : Steady Schema.shape.required := _.
#[global] Instance active_steady : Steady Schema.shape.active := _.
#[global] Instance organizationId_steady : Steady Schema.shape.organizationId := _.
#[global] Instance options_steady : Steady Schema.shape.options := _.

(** * Facts about the schema *)

Lemma prop_defined (fields : gmap string Value) k v :
  v <> JUndefined -> prop fields k = v <-> fields !! k = Some v.
Proof.
  unfold prop. destruct (fields !! k) as [u|]; simpl; split;
    intros; simplify_eq; done.
Qed.

Lemma prop_absent (fields : gmap string Value) k :
  fields !! k = None -> prop fields k = JUndefined.
Proof. unfold prop. intros ->. reflexivity. Qed.

Lemma required_parse p v :
  shape.required p v =
  match v with
  | JUndefined => (OK false, [])
  | JString s => (OK (String.eqb s "on"), [])
  | _ =>
      (INVALID,
       [ {| code := invalid_type (e_type t_string) (getParsedType v);
            path := p; message := None |} ])
  end.
Proof.
  destruct v; try reflexivity.
  cbv -[String.eqb]. destruct (String.eqb s "on"); reflexivity.
Qed.

(** The two flags have the same schema. *)
Lemma active_parse p v : shape.active p v = shape.required p v.
Proof. reflexivity. Qed.

Lemma required_true_iff p v :
  fst (shape.required p v) = OK true <-> v = JString "on".
Proof.
  rewrite required_parse. destruct v; simpl; split; try discriminate.
  - intros [= H]. apply String.eqb_eq in H. congruence.
  - intros [= ->]. reflexivity.
Qed.

Lemma helpText_parse p v :
  shape.helpText p v =
  match v with
  | JUndefined => (OK None, [])
  | JString s => (OK (if truthy s then Some s else None), [])
  | _ =>
      (INVALID,
       [ {| code := invalid_type (e_type t_string) (getParsedType v);
            path := p; message := None |} ])
  end.
Proof. destruct v; reflexivity. Qed.

Lemma of_value_Some s t :
  CustomFieldTypes.of_value s = Some t <-> s = CustomFieldTypes.value t.
Proof.
  split.
  - unfold CustomFieldTypes.of_value, CustomFieldTypes.members; cbn [find].
    repeat match goal with
    | |- context [String.eqb ?a s] =>
        destruct (String.eqb_spec a s) as [<-|]
    end; intros [= <-] || intros [=]; reflexivity.
  - intros ->. destruct t; reflexivity.
Qed.

Lemma of_value_None s :
  CustomFieldTypes.of_value s = None <-> ~ In s CustomFieldTypes.values.
Proof.
  split.
  - intros H Hin. cbn in Hin.
    destruct Hin as [<-|[<-|[<-|[<-|[<-|[]]]]]]; discriminate.
  - intros Hn. destruct (CustomFieldTypes.of_value s) as [t|] eqn:E;
      [|reflexivity].
    apply of_value_Some in E as ->. exfalso. apply Hn.
    destruct t; cbn; tauto.
Qed.

Section Object.

Variable p : list PathItem.
Variable fields : gmap string Value.

Abbreviation at_key := (@Schema.at_key _ p fields).

Lemma object_parse :
  NewCustomFieldFormSchema p (JObject fields) =
  pure mk <*> at_key "name" shape.name
          <*> at_key "helpText" shape.helpText
          <*> at_key "type" shape.type
          <*> at_key "required" shape.required
          <*> at_key "active" shape.active
          <*> at_key "organizationId" shape.organizationId
          <*> at_key "options" shape.options.
Proof. reflexivity. Qed.

Lemma object_issues :
  snd (NewCustomFieldFormSchema p (JObject fields)) =
  snd (at_key "name" shape.name) ++ snd (at_key "helpText" shape.helpText)
  ++ snd (at_key "type" shape.type) ++ snd (at_key "required" shape.required)
  ++ snd (at_key "active" shape.active)
  ++ snd (at_key "organizationId" shape.organizationId)
  ++ snd (at_key "options" shape.options).
Proof.
  rewrite object_parse, !ap_issues. cbn [pure snd app].
  rewrite <- !app_assoc. reflexivity.
Qed.

Lemma object_valid_inv d :
  fst (NewCustomFieldFormSchema p (JObject fields)) = OK d ->
  fst (at_key "name" shape.name) = OK (name d) /\
  fst (at_key "helpText" shape.helpText) = OK (helpText d) /\
  fst (at_key "type" shape.type) = OK (type d) /\
  fst (at_key "required" shape.required) = OK (required d) /\
  fst (at_key "active" shape.active) = OK (active d) /\
  fst (at_key "organizationId" shape.organizationId)
    = OK (organizationId d) /\
  fst (at_key "options" shape.options) = OK (options d).
Proof.
  rewrite object_parse. intros H.
  apply ap_valid_inv in H as (f7 & x7 & H & H7 & ->).
  apply ap_valid_inv in H as (f6 & x6 & H & H6 & ->).
  apply ap_valid_inv in H as (f5 & x5 & H & H5 & ->).
  apply ap_valid_inv in H as (f4 & x4 & H & H4 & ->).
  apply ap_valid_inv in H as (f3 & x3 & H & H3 & ->).
  apply ap_valid_inv in H as (f2 & x2 & H & H2 & ->).
  apply ap_valid_inv in H as (f1 & x1 & H & H1 & ->).
  injection H as <-. cbn [name helpText type required active
                           organizationId options].
  repeat split; assumption.
Qed.

(** One key that is not valid is enough for the object not to be. *)
Lemma object_not_valid :
  isValid (fst (at_key "name" shape.name)) = false \/
  isValid (fst (at_key "helpText" shape.helpText)) = false \/
  isValid (fst (at_key "type" shape.type)) = false \/
  isValid (fst (at_key "required" shape.required)) = false \/
  isValid (fst (at_key "active" shape.active)) = false \/
  isValid (fst (at_key "organizationId" shape.organizationId)) = false \/
  isValid (fst (at_key "options" shape.options)) = false ->
  isValid (fst (NewCustomFieldFormSchema p (JObject fields))) = false.
Proof.
  rewrite object_parse.
  intros [H|[H|[H|[H|[H|[H|H]]]]]];
    repeat first [ apply ap_not_valid_r; exact H | apply ap_not_valid_l ].
Qed.

End Object.

Lemma safeParse_valid_inv {A} errorMap (schema : ZodType A) data d :
  safeParse errorMap schema data = Success d -> fst (schema [] data) = OK d.
Proof.
  unfold safeParse. destruct (fst (schema [] data)); congruence.
Qed.

Lemma safeParse_not_valid {A} errorMap (schema : ZodType A) data :
  isValid (fst (schema [] data)) = false ->
  safeParse errorMap schema data
  = Failure (map (makeIssue errorMap) (snd (schema [] data))).
Proof.
  unfold safeParse. destruct (fst (schema [] data)); simpl; congruence.
Qed.

(** * Facts about the state *)

Import Jsx View.

Lemma splice_one {A} (i : Z) (arr : list A) :
  (0 <= i < Z.of_nat (length arr))%Z ->
  snd (splice i 1 arr) = delete (Z.to_nat i) arr.
Proof.
  intros Hi. unfold splice. cbn [snd].
  destruct (Z.ltb_spec i 0) as [?|_]; [lia|].
  rewrite Z.min_l by lia. rewrite Z.max_l by lia.
  rewrite Z.min_l by lia.
  rewrite delete_take_drop. do 2 f_equal. lia.
Qed.

Lemma deref_insert heap r arr : deref (<[r := arr]> heap) r = arr.
Proof. unfold deref. rewrite lookup_insert_eq. reflexivity. Qed.

Lemma deref_insert_ne heap r r' arr :
  r <> r' -> deref (<[r := arr]> heap) r' = deref heap r'.
Proof. intros. unfold deref. rewrite lookup_insert_ne by done. reflexivity. Qed.

Lemma fresh_not_in (heap : gmap nat (list string)) r :
  r ∈ dom heap -> fresh (dom heap) <> r.
Proof. intros Hr E. apply (is_fresh (dom heap)). rewrite E. exact Hr. Qed.

(** The next state of [onRemove] is the current array without one entry. *)
Lemma onRemove_options i w :
  (0 <= i < Z.of_nat (length (deref (heap w) (options w))))%Z ->
  deref (heap (onRemove i w)) (options (onRemove i w))
  = delete (Z.to_nat i) (deref (heap w) (options w)).
Proof.
  intros Hi. unfold onRemove. cbn [heap options].
  rewrite !deref_insert. apply splice_one, Hi.
Qed.

(** The array of the current state is changed in place, and the next state
    is another array. *)
Lemma onRemove_in_place i w :
  options (onRemove i w) <> options w /\
  deref (heap (onRemove i w)) (options w)
  = snd (splice i 1 (deref (heap w) (options w))).
Proof.
  unfold onRemove. cbn [heap options].
  set (heap1 := <[options w := _]> (heap w)).
  assert (Hne : fresh (dom heap1) <> options w).
  { apply fresh_not_in. unfold heap1. rewrite dom_insert_L. set_solver. }
  split; [exact Hne|].
  rewrite deref_insert_ne by exact Hne. apply deref_insert.
Qed.

Lemma onAdd_options o w :
  deref (heap (onAdd o w)) (options (onAdd o w))
  = deref (heap w) (options w) ++ [o].
Proof. unfold onAdd. cbn [heap options]. apply deref_insert. Qed.

Lemma mount_wf props heap :
  (forall r, Props.options props = Some r -> r ∈ dom heap) ->
  wf (mount props heap).
Proof.
  unfold wf, mount. intros H. destruct (Props.options props) as [r|].
  - cbn. auto.
  - cbn. rewrite dom_insert_L. set_solver.
Qed.

Lemma handle_wf e w : wf w -> wf (handle e w).
Proof.
  unfold wf. destruct e; cbn [handle]; intros H.
  - exact H.
  - unfold onRemove. cbn [heap options]. rewrite dom_insert_L. set_solver.
  - unfold onAdd. cbn [heap options]. rewrite dom_insert_L. set_solver.
Qed.


(** * Facts about the rendered tree *)

Section Lists.

Context {A B C : Type}.

Lemma find_app (f : A -> bool) l1 l2 :
  find f (l1 ++ l2)
  = match find f l1 with Some x => Some x | None => find f l2 end.
Proof.
  induction l1 as [|x l1 IH]; simpl; [reflexivity|].
  destruct (f x); [reflexivity|exact IH].
Qed.

Lemma find_None_Forall (f : A -> bool) l :
  Forall (fun x => f x = false) l -> find f l = None.
Proof. induction 1 as [|x l Hx _ IH]; simpl; [|rewrite Hx]; auto. Qed.

Lemma filter_nil_Forall (f : A -> bool) l :
  Forall (fun x => f x = false) l -> List.filter f l = [].
Proof. induction 1 as [|x l Hx _ IH]; simpl; [|rewrite Hx]; auto. Qed.

Lemma omap_nil_Forall (f : A -> option B) l :
  Forall (fun x => f x = None) l -> omap f l = [].
Proof. induction 1 as [|x l Hx _ IH]; simpl; [|rewrite Hx]; auto. Qed.

Lemma Forall_imap (P : B -> Prop) (f : nat -> A -> B) l :
  (forall i x, P (f i x)) -> Forall P (imap f l).
Proof.
  revert f. induction l as [|x l IH]; intros f Hf; simpl; constructor.
  - apply Hf.
  - apply IH. intros i y. apply Hf.
Qed.

Lemma omap_imap (g : B -> option C) (f : nat -> A -> B)
    (h : nat -> A -> C) l :
  (forall i x, g (f i x) = Some (h i x)) -> omap g (imap f l) = imap h l.
Proof.
  revert f h. induction l as [|x l IH]; intros f h Hf; simpl; [reflexivity|].
  rewrite Hf. f_equal. apply IH. intros i y. apply Hf.
Qed.

Lemma flat_map_imap (e : B -> list B) (f : nat -> A -> B) l :
  (forall i x, e (f i x) = [f i x]) -> flat_map e (imap f l) = imap f l.
Proof.
  revert f. induction l as [|x l IH]; intros f Hf; simpl; [reflexivity|].
  rewrite Hf. simpl. f_equal. apply IH. intros i y. apply Hf.
Qed.

End Lists.

Section RenderFacts.

Variable FIELD_TYPE_NAME : list (string * string).
Variable zodFieldIsRequired : forall A, ZodType A -> bool.

Abbreviation form := (CustomFieldForm FIELD_TYPE_NAME zodFieldIsRequired).
Abbreviation items := (flat_map elements (select_items FIELD_TYPE_NAME)).

Lemma items_shape : Forall is_item items.
Proof.
  unfold select_items. generalize FIELD_TYPE_NAME at 2. intros l.
  induction l as [|kv l IH]; simpl; [constructor|].
  constructor; [left; do 2 eexists; reflexivity|].
  constructor; [right; eexists; reflexivity|].
  exact IH.
Qed.

Lemma items_omap {B} (f : Node Callback -> option B) :
  (forall e, is_item e -> f e = None) -> omap f items = [].
Proof.
  intros H. apply omap_nil_Forall. eapply Forall_impl; [apply items_shape|].
  exact H.
Qed.

Lemma items_find (f : Node Callback -> bool) :
  (forall e, is_item e -> f e = false) -> find f items = None.
Proof.
  intros H. apply find_None_Forall. eapply Forall_impl; [apply items_shape|].
  exact H.
Qed.

Lemma items_filter (f : Node Callback -> bool) :
  (forall e, is_item e -> f e = false) -> List.filter f items = [].
Proof.
  intros H. apply filter_nil_Forall.
  eapply Forall_impl; [apply items_shape|]. exact H.
Qed.

Lemma hidden_elements opts :
  flat_map elements (hidden_inputs opts) = hidden_inputs opts.
Proof. apply flat_map_imap. reflexivity. Qed.

Lemma hidden_find (f : Node Callback -> bool) opts :
  (forall i op, f (hidden_input i op) = false) ->
  find f (hidden_inputs opts) = None.
Proof. intros H. apply find_None_Forall, Forall_imap, H. Qed.

Lemma hidden_filter (f : Node Callback -> bool) opts :
  (forall i op, f (hidden_input i op) = false) ->
  List.filter f (hidden_inputs opts) = [].
Proof. intros H. apply filter_nil_Forall, Forall_imap, H. Qed.

End RenderFacts.

Lemma error_attr_leaf (issue : option ZodIssue) :
  match error_attr issue with
  | ANode m => elements m
  | _ => []
  end = [].
Proof. destruct issue; reflexivity. Qed.

Lemma checked_attr_leaf (b : option bool) :
  match checked_attr b with
  | ANode m => elements m
  | _ => []
  end = [].
Proof. destruct b; reflexivity. Qed.

#[local] Arguments select_items : simpl never.
#[local] Arguments hidden_inputs : simpl never.
#[local] Arguments deref : simpl never.

(** No element of a leaf answers the query: the element is laid bare and
    the query is computed on it. *)
Ltac leaf :=
  first
    [ let e := fresh "e" in
      intros e [(? & ? & ->) | (? & ->)]
    | intros ? ? ];
  reflexivity.

Ltac push :=
  cbn [elements flat_map app fst snd];
  rewrite ?error_attr_leaf, ?checked_attr_leaf, ?hidden_elements;
  cbn;
  rewrite ?omap_app, ?List.filter_app, ?find_app, ?map_app;
  rewrite ?items_omap, ?items_filter, ?items_find,
    ?hidden_filter, ?hidden_find by leaf;
  cbn.

(** The elements of the form are laid out as a list of fixed elements around
    the items of the select, the part that depends on the selected type and
    the content of the button; a query is pushed through that list, and then
    through these parts for each selected type and each state of the
    navigation. *)
Ltac walk w env :=
  unfold CustomFieldForm;
  push;
  destruct (selectedType w);
  destruct (isFormProcessing (navigation_state env));
  push;
  rewrite ?app_nil_r.

Section FormFacts.

Variable FIELD_TYPE_NAME : list (string * string).
Variable zodFieldIsRequired : forall A, ZodType A -> bool.
Variables (props : Props.t) (env : Env) (w : World).

Abbreviation form := (CustomFieldForm FIELD_TYPE_NAME zodFieldIsRequired).
Abbreviation disabled := (isFormProcessing (navigation_state env)).

Lemma form_named :
  named (form props env w) =
  [("Input", "name"); ("Select", "type")]
  ++ match selectedType w with
     | OPTION =>
         imap (fun i _ => ("input", Zorm.fields_options i))
              (deref (heap w) (options w))
     | _ => []
     end
  ++ [("Switch", "required"); ("Switch", "active"); ("Input", "helpText");
      ("input", "organizationId")].
Proof.
  unfold named. walk w env; try reflexivity.
  all: unfold hidden_inputs;
    rewrite (omap_imap _ _ (fun i _ => ("input", Zorm.fields_options i)))
    by reflexivity; reflexivity.
Qed.

Lemma form_hidden_fields :
  hidden_fields (form props env w) =
  match selectedType w with
  | OPTION =>
      imap (fun i op => (Zorm.fields_options i, op))
           (deref (heap w) (options w))
  | _ => []
  end
  ++ [("organizationId", organizationId env)].
Proof.
  unfold hidden_fields. walk w env; try reflexivity.
  all: unfold hidden_inputs;
    rewrite (omap_imap _ _ (fun i op => (Zorm.fields_options i, op)))
    by reflexivity; reflexivity.
Qed.

Lemma form_controls :
  map (fun e => (tag_of e, attr_of "name" e, attr_of "disabled" e))
      (controls (form props env w)) =
  [("Input", AStr "name", ABool disabled);
   ("Select", AStr "type", ABool disabled);
   ("Switch", AStr "required", ABool disabled);
   ("Switch", AStr "active", ABool disabled);
   ("Input", AStr "helpText", ABool disabled);
   ("Button", AUndef, ABool disabled)].
Proof. unfold controls. walk w env; reflexivity. Qed.

Lemma form_button :
  map children_of (with_tag "Button" (form props env w)) =
  [[if disabled then Elem "Spinner" [] [] else Text "Save"]].
Proof. unfold with_tag. walk w env; reflexivity. Qed.

Lemma form_trigger :
  map (attr_of "disabled") (with_tag "SelectTrigger" (form props env w)) =
  [ABool (default false (Props.isEdit props))].
Proof. unfold with_tag. walk w env; reflexivity. Qed.

Lemma form_paragraphs :
  map children_of (with_tag "p" (form props env w)) =
  [ [Text (FIELD_TYPE_DESCRIPTION (selectedType w))];
    [Text "Deactivating a field will no longer show it on the asset form and page"];
    [Text "This text will function as a help text that is visible when filling the field"] ].
Proof. unfold with_tag. walk w env; reflexivity. Qed.

Lemma form_type_select :
  (fun e => (tag_of e, attr_of "defaultValue" e))
    <$> by_name "type" (form props env w) =
  Some ("Select", AStr (CustomFieldTypes.value (selectedType w))).
Proof. unfold by_name. walk w env; reflexivity. Qed.

Lemma form_active_switch :
  (fun e => (tag_of e, attr_of "defaultChecked" e))
    <$> by_name "active" (form props env w) =
  Some ("Switch",
        ABool (match Props.active props with
               | None => true
               | Some b => b
               end)).
Proof. unfold by_name. walk w env; reflexivity. Qed.


End FormFacts.

Section SubmissionFacts.

Variable FIELD_TYPE_NAME : list (string * string).
Variable zodFieldIsRequired : forall A, ZodType A -> bool.
Variables (props : Props.t) (env : Env) (w : World).

Abbreviation form := (CustomFieldForm FIELD_TYPE_NAME zodFieldIsRequired).
Abbreviation disabled := (isFormProcessing (navigation_state env)).

(** The select of the type, with its own [disabled]. *)
Lemma form_type_control :
  (fun e => (tag_of e, attr_of "name" e, attr_of "defaultValue" e,
             attr_of "disabled" e))
    <$> by_name "type" (form props env w) =
  Some ("Select", AStr "type",
        AStr (CustomFieldTypes.value (selectedType w)), ABool disabled).
Proof. unfold by_name. walk w env; reflexivity. Qed.

(** What a submission of the form carries: every field when no submission
    is in flight, and only the hidden fields while one is. *)
Lemma form_submitted_names :
  submitted_names (form props env w) =
  (if disabled then [] else ["name"; "type"])
  ++ match selectedType w with
     | OPTION =>
         imap (fun i (_ : string) => Zorm.fields_options i)
              (deref (heap w) (options w))
     | _ => []
     end
  ++ (if disabled then [] else ["required"; "active"; "helpText"])
  ++ ["organizationId"].
Proof.
  unfold submitted_names. walk w env; try reflexivity.
  all: unfold hidden_inputs;
    rewrite (omap_imap _ _ (fun i (_ : string) => Zorm.fields_options i))
    by reflexivity; reflexivity.
Qed.


End SubmissionFacts.

(** * The claims *)


(** C5.  A submission whose name is the empty string and whose other
    fields are all accepted by their schemas fails with exactly one issue:
    the minimum-length issue of [name], with the message of the schema.  No
    other field is reported. *)
Theorem empty_name_only_min_length_error
    (errorMap : IssueData -> string) (fields : gmap string Value) :
  fields !! "name" = Some (JString "") ->
  accepts shape.helpText (prop fields "helpText") = true ->
  accepts shape.type (prop fields "type") = true ->
  accepts shape.required (prop fields "required") = true ->
  accepts shape.active (prop fields "active") = true ->
  accepts shape.organizationId (prop fields "organizationId") = true ->
  accepts shape.options (prop fields "options") = true ->
  safeParse errorMap NewCustomFieldFormSchema (JObject fields) =
  Failure [ {| issue_code := too_small 2;
               issue_path := [Key "name"];
               issue_message := "Name is required" |} ].
Proof.
  intros Hname Hh Ht Hr Ha Ho Hopts.
  apply prop_defined in Hname; [|discriminate].
  apply accepts_steady in Hh as [h Hh]; [|apply _].
  apply accepts_steady in Ht as [t Ht]; [|apply _].
  apply accepts_steady in Hr as [r Hr]; [|apply _].
  apply accepts_steady in Ha as [a Ha]; [|apply _].
  apply accepts_steady in Ho as [o Ho]; [|apply _].
  apply accepts_steady in Hopts as [opts Hopts]; [|apply _].
  unfold safeParse. rewrite object_parse. unfold Schema.at_key.
  rewrite Hname, Hh, Ht, Hr, Ha, Ho, Hopts. reflexivity.
Qed.

Lemma empty_name_only_min_length_error_witness :
  Samples.blank_name !! "name" = Some (JString "") /\
  safeParse Samples.errorMap NewCustomFieldFormSchema
    (JObject Samples.blank_name) =
  Failure [ {| issue_code := too_small 2;
               issue_path := [Key "name"];
               issue_message := "Name is required" |} ].
Proof.
  split; [vm_compute; reflexivity|].
  apply (empty_name_only_min_length_error Samples.errorMap Samples.blank_name);
    vm_compute; reflexivity.
Defined.

(** C6.  The schema of [required] gives [true] for the string "on" and for
    nothing else; any other string, and an absent field, give [false].  The
    same holds of the [required] of a parsed submission. *)
Theorem required_true_exactly_on
    (p : list PathItem) (v : Value)
    (errorMap : IssueData -> string) (fields : gmap string Value) :
  (fst (shape.required p v) = OK true <-> v = JString "on") /\
  (forall s, v = JString s -> s <> "on" ->
     shape.required p v = (OK false, [])) /\
  (v = JUndefined -> shape.required p v = (OK false, [])) /\
  (forall d,
     safeParse errorMap NewCustomFieldFormSchema (JObject fields) = Success d ->
     (required d = true <-> fields !! "required" = Some (JString "on")) /\
     (fields !! "required" = None -> required d = false)).
Proof.
  split; [apply required_true_iff|]. split; [|split].
  - intros s -> Hs. rewrite required_parse.
    destruct (String.eqb_spec s "on"); [contradiction|reflexivity].
  - intros ->. reflexivity.
  - intros d H. apply safeParse_valid_inv, object_valid_inv in H.
    destruct H as (_ & _ & _ & Hr & _). unfold Schema.at_key in Hr.
    split; [split|].
    + intros Hd. rewrite Hd in Hr. apply required_true_iff in Hr.
      apply prop_defined in Hr; [exact Hr|discriminate].
    + intros Hf.
      apply (prop_defined fields "required" (JString "on")) in Hf;
        [|discriminate].
      rewrite Hf in Hr. injection Hr as <-. reflexivity.
    + intros Hf. rewrite (prop_absent _ _ Hf) in Hr.
      injection Hr as <-. reflexivity.
Qed.

Lemma required_true_exactly_on_witness :
  JString "yes" <> JString "on" /\
  shape.required [Key "required"] (JString "yes") = (OK false, []) /\
  (exists d,
     safeParse Samples.errorMap NewCustomFieldFormSchema (JObject Samples.full)
     = Success d /\ required d = true) /\
  (exists d,
     safeParse Samples.errorMap NewCustomFieldFormSchema
       (JObject Samples.minimal) = Success d /\ required d = false).
Proof.
  destruct (required_true_exactly_on [Key "required"] (JString "yes")
              Samples.errorMap Samples.full) as (_ & Hs & _ & Hfull).
  destruct (required_true_exactly_on [] JUndefined
              Samples.errorMap Samples.minimal) as (_ & _ & _ & Hmin).
  split; [discriminate|]. split; [|split].
  - apply (Hs "yes"); [reflexivity|discriminate].
  - eexists. split; [vm_compute; reflexivity|].
    apply Hfull; vm_compute; reflexivity.
  - eexists. split; [vm_compute; reflexivity|].
    apply Hmin; vm_compute; reflexivity.
Defined.

(** C9.  The schema of [type] accepts a value exactly when it is the string
    of one of the five tokens, and then returns that token.  Any other
    string is refused with one issue, an invalid enum value at the path of
    the field; [safeParse] of a submission with such a type fails and
    reports that issue at [type]. *)
Theorem type_accepts_exactly_enum_tokens
    (p : list PathItem) (v : Value)
    (errorMap : IssueData -> string) (fields : gmap string Value) :
  CustomFieldTypes.values
  = ["TEXT"; "OPTION"; "BOOLEAN"; "DATE"; "MULTILINE_TEXT"] /\
  (isValid (fst (shape.type p v)) = true <->
   exists t, v = JString (CustomFieldTypes.value t)) /\
  (forall t, shape.type p (JString (CustomFieldTypes.value t)) = (OK t, [])) /\
  (forall s, ~ In s CustomFieldTypes.values ->
     shape.type p (JString s) =
     (INVALID,
      [ {| code := invalid_enum_value (JString s) CustomFieldTypes.values;
           path := p; message := None |} ]) /\
     (fields !! "type" = Some (JString s) ->
      exists error,
        safeParse errorMap NewCustomFieldFormSchema (JObject fields)
        = Failure error /\
        In (makeIssue errorMap
              {| code :=
                   invalid_enum_value (JString s) CustomFieldTypes.values;
                 path := [Key "type"]; message := None |})
           error)).
Proof.
  assert (Hok : forall t q,
             shape.type q (JString (CustomFieldTypes.value t)) = (OK t, [])).
  { intros t q. destruct t; reflexivity. }
  assert (Hbad : forall s q, ~ In s CustomFieldTypes.values ->
             shape.type q (JString s) =
             (INVALID,
              [ {| code :=
                     invalid_enum_value (JString s) CustomFieldTypes.values;
                   path := q; message := None |} ])).
  { intros s q Hs. apply of_value_None in Hs.
    unfold shape.type, z.nativeEnum, ZodNativeEnum. rewrite Hs. reflexivity. }
  split; [reflexivity|]. split; [split|split].
  - destruct v; try discriminate.
    unfold shape.type, z.nativeEnum, ZodNativeEnum.
    destruct (CustomFieldTypes.of_value s) as [t|] eqn:E; [|discriminate].
    apply of_value_Some in E as ->. eauto.
  - intros [t ->]. rewrite Hok. reflexivity.
  - intros t. apply Hok.
  - intros s Hs. split; [apply Hbad, Hs|].
    intros Hf. apply prop_defined in Hf; [|discriminate].
    eexists. split.
    + apply safeParse_not_valid, object_not_valid.
      right; right; left. unfold Schema.at_key.
      rewrite Hf, (Hbad _ _ Hs). reflexivity.
    + apply in_map. rewrite object_issues. unfold Schema.at_key at 3.
      rewrite Hf, (Hbad _ _ Hs). cbn [snd].
      rewrite !in_app_iff. right; right; left. left. reflexivity.
Qed.

Lemma type_accepts_exactly_enum_tokens_witness :
  ~ In "NUMBER" CustomFieldTypes.values /\
  Samples.bad_type !! "type" = Some (JString "NUMBER") /\
  exists error,
    safeParse Samples.errorMap NewCustomFieldFormSchema
      (JObject Samples.bad_type) = Failure error /\
    In {| issue_code :=
            invalid_enum_value (JString "NUMBER") CustomFieldTypes.values;
          issue_path := [Key "type"];
          issue_message := "Invalid input" |} error.
Proof.
  assert (Hn : ~ In "NUMBER" CustomFieldTypes.values).
  { vm_compute. intuition discriminate. }
  split; [exact Hn|]. split; [vm_compute; reflexivity|].
  destruct (type_accepts_exactly_enum_tokens [] JNull Samples.errorMap
              Samples.bad_type) as (_ & _ & _ & H).
  apply (H "NUMBER" Hn). vm_compute; reflexivity.
Defined.

(** C1, as the code has it.  When [active] is absent from a submission the
    schema resolves it to [false], as it does for [required]: it is [true]
    only for the string "on".  The default of [true] is that of the rendered
    switch: when no [active] prop is passed, the switch is rendered
    checked. *)
Theorem active_absent_parses_false_renders_checked
    (errorMap : IssueData -> string) (fields : gmap string Value)
    (FIELD_TYPE_NAME : list (string * string))
    (zodFieldIsRequired : forall A, ZodType A -> bool)
    (props : Props.t) (env : Env) (w : World) :
  fields !! "active" = None ->
  Props.active props = None ->
  (forall p, shape.active p (prop fields "active") = (OK false, [])) /\
  (forall d,
     safeParse errorMap NewCustomFieldFormSchema (JObject fields) = Success d ->
     active d = false) /\
  (fun e => (tag_of e, attr_of "defaultChecked" e))
    <$> by_name "active"
          (CustomFieldForm FIELD_TYPE_NAME zodFieldIsRequired props env w)
  = Some ("Switch", ABool true).
Proof.
  intros Hf Hp. split; [|split].
  - intros p. rewrite (prop_absent _ _ Hf). reflexivity.
  - intros d H. apply safeParse_valid_inv, object_valid_inv in H.
    destruct H as (_ & _ & _ & _ & Ha & _). unfold Schema.at_key in Ha.
    rewrite (prop_absent _ _ Hf) in Ha. injection Ha as <-. reflexivity.
  - rewrite form_active_switch, Hp. reflexivity.
Qed.

Lemma active_absent_parses_false_renders_checked_witness :
  Samples.minimal !! "active" = None /\
  Props.active Samples.create = None /\
  (exists d,
     safeParse Samples.errorMap NewCustomFieldFormSchema
       (JObject Samples.minimal) = Success d /\ active d = false) /\
  (fun e => (tag_of e, attr_of "defaultChecked" e))
    <$> by_name "active"
          (Samples.form Samples.create (Samples.env idle)
             (mount Samples.create ∅))
  = Some ("Switch", ABool true).
Proof.
  assert (Hf : Samples.minimal !! "active" = None) by (vm_compute; reflexivity).
  destruct (active_absent_parses_false_renders_checked
              Samples.errorMap Samples.minimal
              Samples.FIELD_TYPE_NAME Samples.zodFieldIsRequired
              Samples.create (Samples.env idle) (mount Samples.create ∅)
              Hf eq_refl) as (_ & Hd & Hsw).
  split; [exact Hf|]. split; [reflexivity|]. split; [|exact Hsw].
  eexists. split; [vm_compute; reflexivity|].
  apply Hd. vm_compute; reflexivity.
Defined.

(** C1, as it is stated, fails: a valid submission without [active] is
    parsed with [active] false. *)
Lemma active_absent_counterexample :
  Samples.minimal !! "active" = None /\
  safeParse Samples.errorMap NewCustomFieldFormSchema
    (JObject Samples.minimal) =
  Success {| Schema.name := "Serial number";
             Schema.helpText := None;
             Schema.type := TEXT;
             Schema.required := false;
             Schema.active := false;
             Schema.organizationId := "org_1";
             Schema.options := None |}.
Proof. split; vm_compute; reflexivity. Qed.

(** C2, as the code has it.  The controls that are given the [disabled] of
    the component are the name input, the type select, the two switches, the
    help-text input and the submit button.  While the navigation is
    submitting or loading all six are rendered disabled and the button holds
    a spinner; when it is idle all six are rendered with [disabled] false
    and the button holds "Save", and the trigger of the select is disabled
    exactly when [isEdit] is true. *)
Theorem processing_disables_wired_controls
    (FIELD_TYPE_NAME : list (string * string))
    (zodFieldIsRequired : forall A, ZodType A -> bool)
    (props : Props.t) (env : Env) (w : World) :
  let tree := CustomFieldForm FIELD_TYPE_NAME zodFieldIsRequired props env w in
  map (fun e => (tag_of e, attr_of "name" e)) (controls tree) =
    [("Input", AStr "name"); ("Select", AStr "type");
     ("Switch", AStr "required"); ("Switch", AStr "active");
     ("Input", AStr "helpText"); ("Button", AUndef)] /\
  (isFormProcessing (navigation_state env) = true ->
     Forall (fun e => attr_of "disabled" e = ABool true) (controls tree) /\
     map children_of (with_tag "Button" tree) = [[Elem "Spinner" [] []]]) /\
  (navigation_state env = idle ->
     Forall (fun e => attr_of "disabled" e = ABool false) (controls tree) /\
     map children_of (with_tag "Button" tree) = [[Text "Save"]] /\
     map (attr_of "disabled") (with_tag "SelectTrigger" tree)
     = [ABool (default false (Props.isEdit props))]).
Proof.
  intros tree.
  pose proof (form_controls FIELD_TYPE_NAME zodFieldIsRequired props env w)
    as Hc. fold tree in Hc.
  assert (Hall : Forall
            (fun e => attr_of "disabled" e
                      = ABool (isFormProcessing (navigation_state env)))
            (controls tree)).
  { assert (Hd : map (attr_of "disabled") (controls tree)
                 = repeat (ABool (isFormProcessing (navigation_state env))) 6).
    { apply (f_equal (map snd)) in Hc. rewrite map_map in Hc. exact Hc. }
    apply List.Forall_forall. intros e He.
    apply (in_map (attr_of "disabled")) in He. rewrite Hd in He.
    apply repeat_spec in He. exact He. }
  split; [|split].
  - apply (f_equal (map fst)) in Hc. rewrite map_map in Hc. exact Hc.
  - intros Hd. rewrite Hd in Hall. split; [exact Hall|].
    unfold tree. rewrite form_button, Hd. reflexivity.
  - intros Hi. rewrite Hi in Hall. split; [exact Hall|].
    unfold tree. rewrite form_button, form_trigger, Hi. split; reflexivity.
Qed.

Lemma processing_disables_wired_controls_witness :
  let busy := Samples.form Samples.create (Samples.env loading)
                Samples.three_options in
  let rest := Samples.form Samples.edit (Samples.env idle)
                (mount Samples.edit ∅) in
  isFormProcessing loading = true /\
  Forall (fun e => attr_of "disabled" e = ABool true) (controls busy) /\
  map children_of (with_tag "Button" busy) = [[Elem "Spinner" [] []]] /\
  Forall (fun e => attr_of "disabled" e = ABool false) (controls rest) /\
  map children_of (with_tag "Button" rest) = [[Text "Save"]].
Proof.
  intros busy rest.
  destruct (processing_disables_wired_controls
              Samples.FIELD_TYPE_NAME Samples.zodFieldIsRequired
              Samples.create (Samples.env loading) Samples.three_options)
    as (_ & Hbusy & _).
  destruct (processing_disables_wired_controls
              Samples.FIELD_TYPE_NAME Samples.zodFieldIsRequired
              Samples.edit (Samples.env idle) (mount Samples.edit ∅))
    as (_ & _ & Hrest).
  destruct (Hbusy eq_refl) as (Hb1 & Hb2).
  destruct (Hrest eq_refl) as (Hr1 & Hr2 & _).
  split; [reflexivity|]. split; [exact Hb1|]. split; [exact Hb2|].
  split; [exact Hr1|exact Hr2].
Defined.

(** C2, as it is stated, fails twice.  While a submission is in flight the
    option-list editor is rendered without any [disabled]; and when the
    navigation is idle the trigger of the type select of a field that is
    edited is still rendered disabled. *)
Lemma option_builder_not_disabled_counterexample :
  isFormProcessing submitting = true /\
  selectedType Samples.three_options = OPTION /\
  map (attr_of "disabled")
      (with_tag "OptionBuilder"
         (Samples.form Samples.create (Samples.env submitting)
            Samples.three_options))
  = [AUndef] /\
  map (attr_of "disabled")
      (with_tag "SelectTrigger"
         (Samples.form Samples.edit (Samples.env idle)
            (mount Samples.edit ∅)))
  = [ABool true].
Proof.
  split; [reflexivity|]. split; [vm_compute; reflexivity|].
  split; vm_compute; reflexivity.
Qed.

(** C3.  When the selected type is not OPTION the form has no hidden input
    for an option: its only hidden field is the organization, and no element
    of the form is named after an option.  When the selected type is OPTION
    the hidden fields are, in order, one per option, named [options[i]] with
    the option as value, before the organization. *)
Theorem option_fields_only_for_option_type
    (FIELD_TYPE_NAME : list (string * string))
    (zodFieldIsRequired : forall A, ZodType A -> bool)
    (props : Props.t) (env : Env) (w : World) :
  let tree := CustomFieldForm FIELD_TYPE_NAME zodFieldIsRequired props env w in
  (selectedType w <> OPTION ->
     hidden_fields tree = [("organizationId", organizationId env)] /\
     named tree =
       [("Input", "name"); ("Select", "type"); ("Switch", "required");
        ("Switch", "active"); ("Input", "helpText");
        ("input", "organizationId")] /\
     (forall i, ~ In (Zorm.fields_options i) (map snd (named tree)))) /\
  (selectedType w = OPTION ->
     hidden_fields tree =
       imap (fun i op => (Zorm.fields_options i, op))
            (deref (heap w) (options w))
       ++ [("organizationId", organizationId env)]) /\
  (forall i, Zorm.fields_options i = "options[" +:+ pretty i +:+ "]").
Proof.
  intros tree. unfold tree.
  rewrite form_hidden_fields, form_named.
  split; [|split].
  - intros Hne.
    destruct (selectedType w); try congruence.
    all: split; [reflexivity|]; split; [reflexivity|].
    all: intros i Hin; cbn [app map snd In] in Hin.
    all: destruct Hin as [H|[H|[H|[H|[H|[H|[]]]]]]]; discriminate H.
  - intros ->. reflexivity.
  - reflexivity.
Qed.

Lemma option_fields_only_for_option_type_witness :
  selectedType (mount Samples.edit ∅) <> OPTION /\
  hidden_fields (Samples.form Samples.edit (Samples.env idle)
                   (mount Samples.edit ∅))
  = [("organizationId", "org_1")] /\
  selectedType Samples.three_options = OPTION /\
  hidden_fields (Samples.form Samples.create (Samples.env idle)
                   Samples.three_options)
  = [("options[0]", "red"); ("options[1]", "green"); ("options[2]", "blue");
     ("organizationId", "org_1")].
Proof.
  assert (Hne : selectedType (mount Samples.edit ∅) <> OPTION)
    by (vm_compute; discriminate).
  destruct (option_fields_only_for_option_type
              Samples.FIELD_TYPE_NAME Samples.zodFieldIsRequired
              Samples.edit (Samples.env idle) (mount Samples.edit ∅))
    as (Hother & _ & _).
  destruct (option_fields_only_for_option_type
              Samples.FIELD_TYPE_NAME Samples.zodFieldIsRequired
              Samples.create (Samples.env idle) Samples.three_options)
    as (_ & Hoption & _).
  split; [exact Hne|]. split; [apply (Hother Hne)|].
  split; [reflexivity|].
  unfold Samples.form. rewrite (Hoption eq_refl). vm_compute. reflexivity.
Defined.
(** C4.  For a list of options of length n > 1 and an index i with
    0 <= i < n, [onRemove] at i makes the state a new array that holds the
    former list without its entry at i: the entries before i keep their
    place, those after i move one place down, and the length is n - 1.  The
    selected type is not changed. *)
Theorem onRemove_excludes_entry (w : World) (i : Z) :
  let l := deref (heap w) (options w) in
  let w' := onRemove i w in
  let l' := deref (heap w') (options w') in
  1 < length l ->
  (0 <= i < Z.of_nat (length l))%Z ->
  l' = take (Z.to_nat i) l ++ drop (S (Z.to_nat i)) l /\
  length l' = length l - 1 /\
  (forall j, j < Z.to_nat i -> l' !! j = l !! j) /\
  (forall j, Z.to_nat i <= j -> l' !! j = l !! (S j)) /\
  options w' <> options w /\
  selectedType w' = selectedType w.
Proof.
  intros l w' l' Hn Hi. subst l' w'.
  rewrite (onRemove_options i w Hi). fold l.
  repeat split.
  - apply delete_take_drop.
  - rewrite length_delete; [lia|]. apply lookup_lt_is_Some. lia.
  - intros j Hj. apply list_lookup_delete_lt. exact Hj.
  - intros j Hj. apply list_lookup_delete_ge. exact Hj.
  - apply onRemove_in_place.
Qed.

Lemma onRemove_excludes_entry_witness :
  1 < length (deref (heap Samples.three_options)
                    (options Samples.three_options)) /\
  (0 <= 1 < 3)%Z /\
  deref (heap Samples.three_options) (options Samples.three_options)
  = ["red"; "green"; "blue"] /\
  deref (heap (onRemove 1 Samples.three_options))
        (options (onRemove 1 Samples.three_options))
  = ["red"; "blue"].
Proof.
  assert (Hl : deref (heap Samples.three_options)
                     (options Samples.three_options)
               = ["red"; "green"; "blue"]) by (vm_compute; reflexivity).
  assert (Hn : 1 < length (deref (heap Samples.three_options)
                                 (options Samples.three_options)))
    by (rewrite Hl; simpl; lia).
  assert (Hi : (0 <= 1 < Z.of_nat (length
                  (deref (heap Samples.three_options)
                         (options Samples.three_options))))%Z)
    by (rewrite Hl; simpl; lia).
  destruct (onRemove_excludes_entry Samples.three_options 1 Hn Hi)
    as (Hr & _).
  split; [exact Hn|]. split; [lia|]. split; [exact Hl|].
  rewrite Hr, Hl. reflexivity.
Defined.



(** C8.  When [isEdit] is true the trigger of the type select is rendered
    disabled, while the select itself is not: it is still named "type", has
    the selected type as its value, and its own [disabled] is that of every
    other control, which is false while no submission is in flight, so that
    a submission still carries the field "type".  On the first render the
    selected type is the type of the field that is edited. *)
Theorem isEdit_locks_type_and_keeps_its_value
    (FIELD_TYPE_NAME : list (string * string))
    (zodFieldIsRequired : forall A, ZodType A -> bool)
    (props : Props.t) (env : Env) (w : World)
    (heap0 : gmap nat (list string)) :
  Props.isEdit props = Some true ->
  let form := CustomFieldForm FIELD_TYPE_NAME zodFieldIsRequired props env in
  map (attr_of "disabled") (with_tag "SelectTrigger" (form w))
  = [ABool true] /\
  (fun e => (tag_of e, attr_of "name" e, attr_of "defaultValue" e,
             attr_of "disabled" e))
    <$> by_name "type" (form w)
  = Some ("Select", AStr "type",
          AStr (CustomFieldTypes.value (selectedType w)),
          ABool (isFormProcessing (navigation_state env))) /\
  (navigation_state env = idle ->
   attr_of "disabled" <$> by_name "type" (form w) = Some (ABool false) /\
   In "type" (submitted_names (form w))) /\
  selectedType (mount props heap0) = default TEXT (Props.type props) /\
  (forall t, Props.type props = Some t ->
     selectedType (mount props heap0) = t /\
     (fun e => (tag_of e, attr_of "defaultValue" e))
       <$> by_name "type" (form (mount props heap0))
     = Some ("Select", AStr (CustomFieldTypes.value t))).
Proof.
  intros He form. unfold form.
  assert (Hm : selectedType (mount props heap0)
               = default TEXT (Props.type props)).
  { unfold mount. destruct (Props.options props); reflexivity. }
  split; [rewrite form_trigger, He; reflexivity|].
  split; [apply form_type_control|].
  split; [|split; [exact Hm|]].
  - intros Hi.
    pose proof (form_type_control FIELD_TYPE_NAME zodFieldIsRequired
                  props env w) as Hc.
    rewrite form_submitted_names, Hi. split.
    + destruct (by_name "type" _) as [e|]; [|discriminate Hc].
      cbn [fmap option_fmap option_map] in *. injection Hc as _ _ _ Hd.
      rewrite Hd, Hi. reflexivity.
    + cbn [isFormProcessing app In]. tauto.
  - intros t Ht. rewrite Ht in Hm. split; [exact Hm|].
    rewrite form_type_select, Hm. reflexivity.
Qed.

Lemma isEdit_locks_type_and_keeps_its_value_witness :
  let tree := Samples.form Samples.edit (Samples.env idle)
                (mount Samples.edit ∅) in
  Props.isEdit Samples.edit = Some true /\
  map (attr_of "disabled") (with_tag "SelectTrigger" tree) = [ABool true] /\
  (fun e => (tag_of e, attr_of "name" e, attr_of "defaultValue" e,
             attr_of "disabled" e))
    <$> by_name "type" tree
  = Some ("Select", AStr "type", AStr "DATE", ABool false) /\
  In "type" (submitted_names tree).
Proof.
  intros tree.
  destruct (isEdit_locks_type_and_keeps_its_value
              Samples.FIELD_TYPE_NAME Samples.zodFieldIsRequired
              Samples.edit (Samples.env idle) (mount Samples.edit ∅) ∅
              eq_refl) as (Htr & Hsel & Hidle & _ & _).
  destruct (Hidle eq_refl) as [_ Hin].
  split; [reflexivity|]. split; [exact Htr|].
  split; [exact Hsel|exact Hin].
Defined.

(** C10.  When no [type] prop is passed, the selected type of the first
    render is TEXT: the select has "TEXT" as its value and the description
    that is shown is that of TEXT. *)
Theorem no_type_prop_selects_text
    (FIELD_TYPE_NAME : list (string * string))
    (zodFieldIsRequired : forall A, ZodType A -> bool)
    (props : Props.t) (env : Env) (heap0 : gmap nat (list string)) :
  Props.type props = None ->
  let w := mount props heap0 in
  let tree := CustomFieldForm FIELD_TYPE_NAME zodFieldIsRequired props env w in
  selectedType w = TEXT /\
  (fun e => (tag_of e, attr_of "defaultValue" e)) <$> by_name "type" tree
  = Some ("Select", AStr "TEXT") /\
  head (map children_of (with_tag "p" tree))
  = Some [Text (FIELD_TYPE_DESCRIPTION TEXT)].
Proof.
  intros Ht w tree. unfold tree.
  assert (Hm : selectedType w = TEXT).
  { unfold w, mount. rewrite Ht. destruct (Props.options props); reflexivity. }
  rewrite form_type_select, form_paragraphs, Hm. repeat split.
Qed.

Lemma no_type_prop_selects_text_witness :
  Props.type Samples.create = None /\
  selectedType (mount Samples.create ∅) = TEXT /\
  (fun e => (tag_of e, attr_of "defaultValue" e))
    <$> by_name "type"
          (Samples.form Samples.create (Samples.env idle)
             (mount Samples.create ∅))
  = Some ("Select", AStr "TEXT").
Proof.
  destruct (no_type_prop_selects_text
              Samples.FIELD_TYPE_NAME Samples.zodFieldIsRequired
              Samples.create (Samples.env idle) ∅ eq_refl)
    as (Hs & Hv & _).
  split; [reflexivity|]. split; [exact Hs|exact Hv].
Defined.

(** * Part three: further properties of the code *)

(** * Further facts about the schema *)

Section MoreParsers.

Context {A B : Type}.

Lemma ap_not_valid_inv (pf : Parsed (A -> B)) (px : Parsed A) :
  isValid (fst (ap pf px)) = false ->
  isValid (fst pf) = false \/ isValid (fst px) = false.
Proof.
  unfold ap; simpl. destruct (fst pf), (fst px); simpl; auto.
Qed.

End MoreParsers.

#[global] Instance ZodString_reporting checks : Reporting (ZodString checks).
Proof.
  intros p data H. destruct data; simpl in *; try discriminate.
  destruct (flat_map (runCheck p s) checks); [discriminate|discriminate].
Qed.

#[global] Instance optional_reporting {A} (inner : ZodType A) :
  Reporting inner -> Reporting (optional inner).
Proof.
  intros Hin p data H. unfold optional in *.
  destruct data; simpl in *; try discriminate;
    (apply Hin; destruct (fst (inner p _)); simpl in *; congruence).
Qed.

#[global] Instance transform_reporting {A B} (inner : ZodType A)
    (f : A -> B) :
  Reporting inner -> Reporting (transform inner f).
Proof.
  intros Hin p data H. unfold transform in *; simpl in *.
  apply Hin. destruct (fst (inner p data)); simpl in *; congruence.
Qed.

#[global] Instance ZodNativeEnum_reporting {E} values
    (of_value : string -> option E) :
  Reporting (ZodNativeEnum values of_value).
Proof.
  intros p data H. destruct data; simpl in *; try discriminate.
  destruct (of_value s); simpl in *; discriminate.
Qed.

Lemma parseItems_reporting {A} (element : ZodType A) `{!Reporting element}
    items :
  forall p i, isValid (fst (parseItems element p i items)) = false ->
  snd (parseItems element p i items) <> [].
Proof.
  induction items as [|v items IH]; intros p i H; cbn [parseItems] in *.
  - discriminate.
  - rewrite !ap_issues. cbn [pure snd app].
    apply ap_not_valid_inv in H as [H|H].
    + apply ap_not_valid_inv in H as [H|H]; [discriminate|].
      apply reporting in H. intros [E _]%app_eq_nil. contradiction.
    + apply IH in H. intros [_ E]%app_eq_nil. contradiction.
Qed.

#[global] Instance ZodArray_reporting {A} (element : ZodType A) :
  Reporting element -> Reporting (ZodArray element).
Proof.
  intros Hel p data H. destruct data; simpl in *; try discriminate.
  apply parseItems_reporting; assumption.
Qed.

#[global] Instance name_reporting : Reporting shape.name := _.
#[global] Instance helpText_reporting : Reporting shape.helpText := _.
#[global] Instance type_reporting : Reporting shape.type := _.
#[global] Instance required_reporting : Reporting shape.required := _.
#[global] Instance active_reporting : Reporting shape.active := _.
#[global] Instance organizationId_reporting :
  Reporting shape.organizationId := _.
#[global] Instance options_reporting : Reporting shape.options := _.

#[global] Instance NewCustomFieldFormSchema_reporting :
  Reporting NewCustomFieldFormSchema.
Proof.
  intros p data H. destruct data as [| | | | | |fields];
    try (simpl; discriminate).
  rewrite object_issues. rewrite object_parse in H.
  unfold Schema.at_key in *.
  assert (Hnil : forall {X} (l1 l2 : list X), l1 ++ l2 = [] -> l1 = [] /\ l2 = [])
    by (intros; apply app_eq_nil; assumption).
  repeat (apply ap_not_valid_inv in H as [H|H]);
    try discriminate H;
    apply reporting in H; intros E;
    repeat (apply Hnil in E as [? E]); contradiction.
Qed.

(** The issues of the schema of a key of the shape are at the path of that
    key; those of [options] can also be at an index below it. *)
#[global] Instance ZodString_local checks : Local (ZodString checks).
Proof.
  intros p data. destruct data; simpl; repeat constructor.
  induction checks as [|[n msg] checks IH]; simpl; [constructor|].
  destruct (String.length s <? n)%nat; simpl; [constructor|]; auto.
Qed.

#[global] Instance optional_local {A} (inner : ZodType A) :
  Local inner -> Local (optional inner).
Proof.
  intros Hin p data. unfold optional.
  destruct data; simpl; try apply Hin. constructor.
Qed.

#[global] Instance transform_local {A B} (inner : ZodType A) (f : A -> B) :
  Local inner -> Local (transform inner f).
Proof. intros Hin p data. unfold transform; simpl. apply Hin. Qed.

#[global] Instance ZodNativeEnum_local {E} values
    (of_value : string -> option E) :
  Local (ZodNativeEnum values of_value).
Proof.
  intros p data. destruct data; simpl; repeat constructor.
  destruct (of_value s); simpl; repeat constructor.
Qed.

(** Every item of an array of strings is checked: the issues are those of
    all the items that are not strings, each at its index. *)
Lemma parseItems_string_issues p items :
  forall i,
    snd (parseItems z.string p i items)
    = concat (imap (fun k v => item_issues p (i + k) v) items).
Proof.
  induction items as [|v items IH]; intros i; cbn [parseItems].
  - reflexivity.
  - rewrite !ap_issues, IH. cbn [pure snd app imap concat].
    rewrite Nat.add_0_r. f_equal.
    + destruct v; reflexivity.
    + f_equal. apply imap_ext. intros k x _. simpl. f_equal. lia.
Qed.

Lemma parseItems_string_valid p items :
  forall i,
    isValid (fst (parseItems z.string p i items)) = true <->
    Forall (fun v => exists s, v = JString s) items.
Proof.
  induction items as [|v items IH]; intros i; cbn [parseItems].
  - split; [constructor|reflexivity].
  - split.
    + intros H.
      destruct (isValid (fst (parseItems z.string p (S i) items))) eqn:E.
      * constructor; [|apply (IH (S i)), E].
        destruct v; try (exfalso; revert H; unfold ap; simpl;
          destruct (fst (parseItems z.string p (S i) items)); discriminate).
        eauto.
      * apply (ap_not_valid_r (pure cons <*> z.string (p ++ [Idx i]) v)) in E.
        congruence.
    + intros H. inversion H as [|? ? [s ->] Hrest]; subst.
      apply (IH (S i)) in Hrest.
      unfold ap; simpl.
      destruct (fst (parseItems z.string p (S i) items)); simpl in *;
        congruence.
Qed.

#[global] Instance name_local : Local shape.name := _.
#[global] Instance helpText_local : Local shape.helpText := _.
#[global] Instance type_local : Local shape.type := _.
#[global] Instance required_local : Local shape.required := _.
#[global] Instance active_local : Local shape.active := _.
#[global] Instance organizationId_local : Local shape.organizationId := _.

Lemma options_issues_paths p data :
  Forall (fun d => path d = p \/ exists n, path d = p ++ [Idx n])
         (snd (shape.options p data)).
Proof.
  destruct data as [| | | | |items|];
    try (simpl; repeat constructor; auto; fail).
  change (snd (shape.options p (JArray items)))
    with (snd (parseItems z.string p 0 items)).
  rewrite parseItems_string_issues.
  apply Forall_concat, Forall_imap. intros i v.
  destruct v; simpl; constructor; first [right; eauto | constructor].
Qed.

Lemma prop_insert_ne (fields : gmap string Value) k k' v :
  k <> k' -> prop (<[k := v]> fields) k' = prop fields k'.
Proof. intros H. unfold prop. rewrite lookup_insert_ne by exact H. done. Qed.

Lemma accepts_valid {A} (schema : ZodType A) `{!Steady schema} p data x :
  fst (schema p data) = OK x -> accepts schema data = true.
Proof.
  intros E. unfold accepts. rewrite (steady _ _ _ E []). reflexivity.
Qed.

Lemma name_parse p s :
  shape.name p (JString s) =
  if (String.length s <? 2)%nat
  then (DIRTY s,
        [ {| code := too_small 2; path := p;
             message := Some "Name is required" |} ])
  else (OK s, []).
Proof.
  unfold shape.name, ZodString. cbn [flat_map runCheck].
  destruct (String.length s <? 2)%nat; reflexivity.
Qed.

Lemma safeParse_failure_inv {A} errorMap (schema : ZodType A) data error :
  safeParse errorMap schema data = Failure error ->
  isValid (fst (schema [] data)) = false /\
  error = map (makeIssue errorMap) (snd (schema [] data)).
Proof.
  unfold safeParse. destruct (fst (schema [] data)); [discriminate|..];
    intros [= <-]; split; reflexivity.
Qed.

(** * Further properties of the schema *)

(** X1.  [safeParse] succeeds exactly on the objects whose seven keys of the
    shape are each accepted by the schema of the key; a value that is not an
    object never parses. *)
Theorem safeParse_succeeds_iff_every_key_accepted
    (errorMap : IssueData -> string) (data : Value) :
  (exists d, safeParse errorMap NewCustomFieldFormSchema data = Success d) <->
  exists fields,
    data = JObject fields /\
    accepts shape.name (prop fields "name") = true /\
    accepts shape.helpText (prop fields "helpText") = true /\
    accepts shape.type (prop fields "type") = true /\
    accepts shape.required (prop fields "required") = true /\
    accepts shape.active (prop fields "active") = true /\
    accepts shape.organizationId (prop fields "organizationId") = true /\
    accepts shape.options (prop fields "options") = true.
Proof.
  split.
  - intros [d H]. apply safeParse_valid_inv in H.
    destruct data as [| | | | | |fields]; try discriminate H.
    exists fields. split; [reflexivity|].
    apply object_valid_inv in H.
    destruct H as (H1 & H2 & H3 & H4 & H5 & H6 & H7).
    unfold Schema.at_key in *.
    repeat split; eapply accepts_valid; try apply _; eassumption.
  - intros (fields & -> & H1 & H2 & H3 & H4 & H5 & H6 & H7).
    apply accepts_steady in H1 as [x1 H1]; [|apply _].
    apply accepts_steady in H2 as [x2 H2]; [|apply _].
    apply accepts_steady in H3 as [x3 H3]; [|apply _].
    apply accepts_steady in H4 as [x4 H4]; [|apply _].
    apply accepts_steady in H5 as [x5 H5]; [|apply _].
    apply accepts_steady in H6 as [x6 H6]; [|apply _].
    apply accepts_steady in H7 as [x7 H7]; [|apply _].
    exists (mk x1 x2 x3 x4 x5 x6 x7).
    unfold safeParse. rewrite object_parse. unfold Schema.at_key.
    rewrite H1, H2, H3, H4, H5, H6, H7. reflexivity.
Qed.

(** X2.  A failure of [safeParse] always carries at least one issue, for any
    input whatever. *)
Theorem safeParse_failure_has_an_issue
    (errorMap : IssueData -> string) (data : Value)
    (error : list ZodIssue) :
  safeParse errorMap NewCustomFieldFormSchema data = Failure error ->
  error <> [].
Proof.
  intros [Hn ->]%safeParse_failure_inv.
  apply reporting in Hn.
  destruct (snd (NewCustomFieldFormSchema [] data));
    [contradiction|discriminate].
Qed.

(** X3.  The issues that [safeParse] reports for an object are all scoped to
    a key of the shape: the path of an issue is that key alone, or the key
    [options] followed by the index of an item. *)
Theorem object_issues_are_field_scoped
    (errorMap : IssueData -> string) (fields : gmap string Value)
    (error : list ZodIssue) :
  safeParse errorMap NewCustomFieldFormSchema (JObject fields)
  = Failure error ->
  Forall (fun i =>
            (exists k, In k shape_keys /\ issue_path i = [Key k]) \/
            (exists n, issue_path i = [Key "options"; Idx n]))
         error.
Proof.
  intros [_ ->]%safeParse_failure_inv.
  rewrite object_issues. unfold Schema.at_key.
  rewrite !map_app, !Forall_app. cbn [app].
  repeat split.
  all: try (apply Forall_map;
            eapply Forall_impl; [apply local|];
            intros d Hd; left; cbn [makeIssue issue_path]; rewrite Hd;
            eexists; split; [|reflexivity]; simpl; auto 10).
  apply Forall_map. eapply Forall_impl; [apply options_issues_paths|].
  intros d [Hd|[n Hd]]; cbn [makeIssue issue_path]; rewrite Hd;
    [left; eexists; split; [|reflexivity]; simpl; auto 10|right; eauto].
Qed.

(** X4.  A key that the shape does not list is dropped: adding it to a
    submission, with any value, does not change the result. *)
Theorem unknown_keys_are_stripped
    (errorMap : IssueData -> string) (fields : gmap string Value)
    (k : string) (v : Value) :
  ~ In k shape_keys ->
  safeParse errorMap NewCustomFieldFormSchema (JObject (<[k := v]> fields))
  = safeParse errorMap NewCustomFieldFormSchema (JObject fields).
Proof.
  intros Hk. unfold safeParse. rewrite !object_parse. unfold Schema.at_key.
  rewrite !prop_insert_ne; [reflexivity|..];
    intros ->; apply Hk; simpl; auto 10.
Qed.

Lemma safeParse_failure_has_an_issue_witness :
  safeParse Samples.errorMap NewCustomFieldFormSchema (JString "name=x")
  = Failure [ {| issue_code := invalid_type (e_type t_object) t_string;
                 issue_path := [];
                 issue_message := "Invalid input" |} ] /\
  [ {| issue_code := invalid_type (e_type t_object) t_string;
       issue_path := [];
       issue_message := "Invalid input" |} ] <> [].
Proof.
  split; [reflexivity|].
  apply (safeParse_failure_has_an_issue Samples.errorMap (JString "name=x")).
  reflexivity.
Defined.

Lemma object_issues_are_field_scoped_witness :
  safeParse Samples.errorMap NewCustomFieldFormSchema
    (JObject MoreSamples.garbled)
  = Failure
      (map (makeIssue Samples.errorMap)
         [ {| code := invalid_type (e_type t_string) t_number;
              path := [Key "name"]; message := None |};
           {| code := invalid_enum_value (JString "NUMBER")
                        CustomFieldTypes.values;
              path := [Key "type"]; message := None |};
           {| code := invalid_type (e_type t_string) t_undefined;
              path := [Key "organizationId"]; message := None |};
           {| code := invalid_type (e_type t_string) t_null;
              path := [Key "options"; Idx 1]; message := None |};
           {| code := invalid_type (e_type t_string) t_number;
              path := [Key "options"; Idx 2]; message := None |} ]) /\
  Forall (fun i =>
            (exists k, In k shape_keys /\ issue_path i = [Key k]) \/
            (exists n, issue_path i = [Key "options"; Idx n]))
    (map (makeIssue Samples.errorMap)
         [ {| code := invalid_type (e_type t_string) t_number;
              path := [Key "name"]; message := None |};
           {| code := invalid_enum_value (JString "NUMBER")
                        CustomFieldTypes.values;
              path := [Key "type"]; message := None |};
           {| code := invalid_type (e_type t_string) t_undefined;
              path := [Key "organizationId"]; message := None |};
           {| code := invalid_type (e_type t_string) t_null;
              path := [Key "options"; Idx 1]; message := None |};
           {| code := invalid_type (e_type t_string) t_number;
              path := [Key "options"; Idx 2]; message := None |} ]).
Proof.
  assert (E : safeParse Samples.errorMap NewCustomFieldFormSchema
                (JObject MoreSamples.garbled) = Failure _)
    by (vm_compute; reflexivity).
  split; [exact E|].
  apply (object_issues_are_field_scoped Samples.errorMap MoreSamples.garbled).
  exact E.
Defined.

Lemma unknown_keys_are_stripped_witness :
  ~ In "csrf" shape_keys /\
  safeParse Samples.errorMap NewCustomFieldFormSchema
    (JObject (<["csrf" := JString "token"]> Samples.full))
  = safeParse Samples.errorMap NewCustomFieldFormSchema
      (JObject Samples.full).
Proof.
  assert (Hk : ~ In "csrf" shape_keys)
    by (simpl; intuition discriminate).
  split; [exact Hk|].
  apply (unknown_keys_are_stripped Samples.errorMap Samples.full "csrf"
           (JString "token") Hk).
Defined.

Lemma parseItems_strings p ss :
  forall i, parseItems z.string p i (map JString ss) = (OK ss, []).
Proof.
  induction ss as [|s ss IH]; intros i; cbn [parseItems map].
  - reflexivity.
  - rewrite IH. reflexivity.
Qed.

(** X5.  The schema of [options] checks every item of an array: it reports
    one issue for each item that is not a string, at the index of that item,
    and none for a string.  It accepts exactly the arrays of strings, and
    returns their strings in order. *)
Theorem options_reports_every_item_that_is_not_a_string
    (p : list PathItem) (items : list Value) :
  snd (shape.options p (JArray items))
  = concat (imap (item_issues p) items) /\
  (accepts shape.options (JArray items) = true <->
   Forall (fun v => exists s, v = JString s) items) /\
  (forall ss, items = map JString ss ->
     shape.options p (JArray items) = (OK (Some ss), [])).
Proof.
  split; [|split].
  - change (snd (shape.options p (JArray items)))
      with (snd (parseItems z.string p 0 items)).
    apply parseItems_string_issues.
  - rewrite <- (parseItems_string_valid [] items 0).
    unfold accepts, shape.options, optional, z.array, ZodArray.
    cbn [fst]. destruct (fst (parseItems z.string [] 0 items)); reflexivity.
  - intros ss ->. unfold shape.options, optional, z.array, ZodArray.
    rewrite parseItems_strings. reflexivity.
Qed.

Lemma options_reports_every_item_that_is_not_a_string_witness :
  snd (shape.options [Key "options"]
         (JArray [JString "red"; JNull; JNumber 2]))
  = [ {| code := invalid_type (e_type t_string) t_null;
         path := [Key "options"; Idx 1]; message := None |};
      {| code := invalid_type (e_type t_string) t_number;
         path := [Key "options"; Idx 2]; message := None |} ] /\
  shape.options [Key "options"] (JArray [JString "red"; JString "blue"])
  = (OK (Some ["red"; "blue"]), []).
Proof.
  destruct (options_reports_every_item_that_is_not_a_string [Key "options"]
              [JString "red"; JNull; JNumber 2]) as (Hi & _ & _).
  destruct (options_reports_every_item_that_is_not_a_string [Key "options"]
              [JString "red"; JString "blue"]) as (_ & _ & Hs).
  split; [rewrite Hi; reflexivity|].
  apply (Hs ["red"; "blue"]). reflexivity.
Defined.

(** X6.  The schema of [name] accepts exactly the strings of at least two
    code units.  A shorter string is refused with one issue, the minimum
    length of 2 with the message of the schema, also when it is not
    empty. *)
Theorem name_needs_two_code_units (p : list PathItem) (v : Value) :
  (accepts shape.name v = true <->
   exists s, v = JString s /\ 2 <= String.length s) /\
  (forall s, v = JString s -> String.length s < 2 ->
     shape.name p v =
     (DIRTY s,
      [ {| code := too_small 2; path := p;
           message := Some "Name is required" |} ])) /\
  (forall s, v = JString s -> 2 <= String.length s ->
     shape.name p v = (OK s, [])).
Proof.
  split; [split|split].
  - destruct v; try discriminate. unfold accepts. rewrite name_parse.
    destruct (Nat.ltb_spec (String.length s) 2); [discriminate|].
    intros _. eauto.
  - intros (s & -> & Hs). unfold accepts. rewrite name_parse.
    destruct (Nat.ltb_spec (String.length s) 2); [lia|reflexivity].
  - intros s -> Hs. rewrite name_parse.
    destruct (Nat.ltb_spec (String.length s) 2); [reflexivity|lia].
  - intros s -> Hs. rewrite name_parse.
    destruct (Nat.ltb_spec (String.length s) 2); [lia|reflexivity].
Qed.

Lemma name_needs_two_code_units_witness :
  String.length "x" < 2 /\
  shape.name [Key "name"] (JString "x") =
  (DIRTY "x",
   [ {| code := too_small 2; path := [Key "name"];
        message := Some "Name is required" |} ]) /\
  2 <= String.length "id" /\
  shape.name [Key "name"] (JString "id") = (OK "id", []).
Proof.
  destruct (name_needs_two_code_units [Key "name"] (JString "x"))
    as (_ & Hshort & _).
  destruct (name_needs_two_code_units [Key "name"] (JString "id"))
    as (_ & _ & Hlong).
  assert (H1 : String.length "x" < 2) by (simpl; lia).
  assert (H2 : 2 <= String.length "id") by (simpl; lia).
  split; [exact H1|]. split; [apply (Hshort "x" eq_refl H1)|].
  split; [exact H2|apply (Hlong "id" eq_refl H2)].
Defined.

(** X7.  The help text of a parsed submission is never the empty string: an
    empty help text is stored as the no-value marker, and a help text that
    is not empty is kept as it is. *)
Theorem helpText_is_never_the_empty_string
    (errorMap : IssueData -> string) (fields : gmap string Value)
    (d : NewCustomFieldForm) :
  safeParse errorMap NewCustomFieldFormSchema (JObject fields) = Success d ->
  Schema.helpText d <> Some "" /\
  (fields !! "helpText" = Some (JString "") -> Schema.helpText d = None) /\
  (forall s, fields !! "helpText" = Some (JString s) -> s <> "" ->
     Schema.helpText d = Some s).
Proof.
  intros H. apply safeParse_valid_inv, object_valid_inv in H.
  destruct H as (_ & Hh & _). unfold Schema.at_key in Hh.
  rewrite helpText_parse in Hh.
  split; [|split].
  - destruct (prop fields "helpText"); try discriminate Hh.
    + injection Hh as <-. discriminate.
    + injection Hh as <-. unfold truthy.
      destruct (String.eqb_spec s ""); simpl; congruence.
  - intros Hf. apply prop_defined in Hf; [|discriminate].
    rewrite Hf in Hh. injection Hh as <-. reflexivity.
  - intros s Hf Hs. apply prop_defined in Hf; [|discriminate].
    rewrite Hf in Hh. injection Hh as <-. unfold truthy.
    destruct (String.eqb_spec s ""); simpl; congruence.
Qed.

Lemma helpText_is_never_the_empty_string_witness :
  (exists d,
     safeParse Samples.errorMap NewCustomFieldFormSchema
       (JObject (<["helpText" := JString ""]> Samples.full)) = Success d /\
     Schema.helpText d = None) /\
  (exists d,
     safeParse Samples.errorMap NewCustomFieldFormSchema
       (JObject Samples.full) = Success d /\
     Schema.helpText d = Some "Pick one").
Proof.
  split.
  - eexists. split; [vm_compute; reflexivity|].
    eapply (helpText_is_never_the_empty_string Samples.errorMap
              (<["helpText" := JString ""]> Samples.full));
      vm_compute; reflexivity.
  - eexists. split; [vm_compute; reflexivity|].
    eapply (helpText_is_never_the_empty_string Samples.errorMap Samples.full);
      [vm_compute; reflexivity|vm_compute; reflexivity|discriminate].
Defined.

(** X8.  The [active] of a parsed submission is [true] exactly when the
    submitted field is the string "on"; it is [false] for any other string,
    so a switch that is off can only be told by its absence or by another
    string. *)
Theorem active_true_exactly_on
    (errorMap : IssueData -> string) (fields : gmap string Value)
    (d : NewCustomFieldForm) :
  safeParse errorMap NewCustomFieldFormSchema (JObject fields) = Success d ->
  (Schema.active d = true <-> fields !! "active" = Some (JString "on")) /\
  (forall s, fields !! "active" = Some (JString s) -> s <> "on" ->
     Schema.active d = false).
Proof.
  intros H. apply safeParse_valid_inv, object_valid_inv in H.
  destruct H as (_ & _ & _ & _ & Ha & _). unfold Schema.at_key in Ha.
  rewrite active_parse in Ha. split; [split|].
  - intros Hd. rewrite Hd in Ha. apply required_true_iff in Ha.
    apply prop_defined in Ha; [exact Ha|discriminate].
  - intros Hf. apply prop_defined in Hf; [|discriminate].
    rewrite Hf in Ha. injection Ha as <-. reflexivity.
  - intros s Hf Hs. apply prop_defined in Hf; [|discriminate].
    rewrite Hf, required_parse in Ha. injection Ha as <-.
    destruct (String.eqb_spec s "on"); [contradiction|reflexivity].
Qed.

Lemma active_true_exactly_on_witness :
  (exists d,
     safeParse Samples.errorMap NewCustomFieldFormSchema
       (JObject Samples.full) = Success d /\ Schema.active d = true) /\
  (exists d,
     safeParse Samples.errorMap NewCustomFieldFormSchema
       (JObject (<["active" := JString "off"]> Samples.full)) = Success d /\
     Schema.active d = false).
Proof.
  split.
  - eexists. split; [vm_compute; reflexivity|].
    eapply (active_true_exactly_on Samples.errorMap Samples.full);
      vm_compute; reflexivity.
  - eexists. split; [vm_compute; reflexivity|].
    eapply (active_true_exactly_on Samples.errorMap
              (<["active" := JString "off"]> Samples.full));
      [vm_compute; reflexivity|vm_compute; reflexivity|discriminate].
Defined.

(** * Further facts about the state *)

Lemma delete_ge {A} (l : list A) n : length l <= n -> delete n l = l.
Proof.
  intros H. rewrite delete_take_drop, take_ge, drop_ge by lia.
  apply app_nil_r.
Qed.

(** [splice(i, 1)] deletes the entry at the position that [i] stands for: a
    negative [i] counts from the end, and stops at the first entry. *)
Lemma splice_any {A} (i : Z) (arr : list A) :
  snd (splice i 1 arr)
  = delete (Z.to_nat (if (i <? 0)%Z
                      then Z.max (Z.of_nat (length arr) + i) 0
                      else i)) arr.
Proof.
  unfold splice. cbn [snd].
  set (len := Z.of_nat (length arr)).
  destruct (Z.ltb_spec i 0) as [Hneg|Hpos].
  - set (m := Z.max (len + i) 0).
    destruct (Z.le_gt_cases len m) as [Hout|Hin].
    + assert (length arr = 0) by lia.
      destruct arr; [|discriminate].
      rewrite take_nil, drop_nil. destruct (Z.to_nat m); reflexivity.
    + rewrite (Z.min_l _ (len - m)) by lia.
      rewrite delete_take_drop. do 2 f_equal. lia.
  - destruct (Z.le_gt_cases len i) as [Hout|Hin].
    + rewrite (Z.min_r i len) by lia.
      rewrite (Z.min_r _ (len - len)) by lia. rewrite delete_ge by lia.
      unfold len. rewrite Nat2Z.id, Z.sub_diag, Nat.add_0_r, take_drop.
      reflexivity.
    + rewrite (Z.min_l i len) by lia.
      rewrite (Z.min_l _ (len - i)) by lia.
      rewrite delete_take_drop. do 2 f_equal. lia.
Qed.

Lemma onRemove_options_any i w :
  deref (heap (onRemove i w)) (options (onRemove i w))
  = snd (splice i 1 (deref (heap w) (options w))).
Proof. unfold onRemove. cbn [heap options]. rewrite !deref_insert. done. Qed.

Lemma onRemove_frame i w r :
  r ∈ dom (heap w) -> r <> options w ->
  heap (onRemove i w) !! r = heap w !! r.
Proof.
  intros Hr Hne. unfold onRemove. cbn [heap].
  set (heap1 := <[options w := _]> (heap w)).
  assert (fresh (dom heap1) <> r).
  { apply fresh_not_in. unfold heap1. rewrite dom_insert_L. set_solver. }
  rewrite lookup_insert_ne by done. unfold heap1.
  rewrite lookup_insert_ne by done. reflexivity.
Qed.

Lemma onAdd_frame o w r :
  r ∈ dom (heap w) -> heap (onAdd o w) !! r = heap w !! r.
Proof.
  intros Hr. unfold onAdd. cbn [heap].
  rewrite lookup_insert_ne; [reflexivity|]. apply fresh_not_in, Hr.
Qed.

Lemma onAdd_new_reference o w r :
  r ∈ dom (heap w) -> options (onAdd o w) <> r.
Proof. intros Hr. unfold onAdd. cbn [options]. apply fresh_not_in, Hr. Qed.

Lemma onRemove_new_reference i w r :
  r ∈ dom (heap w) -> options (onRemove i w) <> r.
Proof.
  intros Hr. unfold onRemove. cbn [options]. apply fresh_not_in.
  rewrite dom_insert_L. set_solver.
Qed.

Lemma handle_dom e w : dom (heap w) ⊆ dom (heap (handle e w)).
Proof.
  destruct e; cbn [handle].
  - done.
  - unfold onRemove. cbn [heap]. rewrite !dom_insert_L. set_solver.
  - unfold onAdd. cbn [heap]. rewrite dom_insert_L. set_solver.
Qed.

(** An array that is not the one of the state is never changed, whatever
    events follow. *)
Lemma run_frame events : forall w r,
  r ∈ dom (heap w) -> r <> options w ->
  heap (run events w) !! r = heap w !! r.
Proof.
  induction events as [|e events IH]; intros w r Hr Hne; [reflexivity|].
  change (run (e :: events) w) with (run events (handle e w)).
  rewrite IH.
  - destruct e; cbn [handle].
    + reflexivity.
    + apply onRemove_frame; assumption.
    + apply onAdd_frame; assumption.
  - apply handle_dom, Hr.
  - destruct e; cbn [handle].
    + exact Hne.
    + intros E. symmetry in E. revert E. apply onRemove_new_reference, Hr.
    + intros E. symmetry in E. revert E. apply onAdd_new_reference, Hr.
Qed.

Lemma run_wf events : forall w, wf w -> wf (run events w).
Proof.
  induction events as [|e events IH]; intros w Hw; [exact Hw|].
  apply (IH (handle e w)), handle_wf, Hw.
Qed.

Lemma run_app es1 es2 w : run (es1 ++ es2) w = run es2 (run es1 w).
Proof. unfold run. apply fold_left_app. Qed.

(** * Further properties of the state *)

(** X9.  [onAdd] makes the state a new array that holds the former list
    followed by the new option; the former array, and every other array of
    the store, is left as it was, and the selected type is not changed. *)
Theorem onAdd_appends_and_changes_no_array (o : string) (w : World) :
  let l := deref (heap w) (options w) in
  let w' := onAdd o w in
  deref (heap w') (options w') = l ++ [o] /\
  (forall j x, l !! j = Some x ->
     deref (heap w') (options w') !! j = Some x) /\
  deref (heap w') (options w') !! length l = Some o /\
  (forall r, r ∈ dom (heap w) -> heap w' !! r = heap w !! r) /\
  (wf w -> options w' <> options w) /\
  selectedType w' = selectedType w.
Proof.
  intros l w'. subst w'. rewrite onAdd_options. fold l.
  split; [reflexivity|]. split; [|split; [|split; [|split]]].
  - intros j x Hj. apply lookup_app_l_Some, Hj.
  - apply list_lookup_middle. reflexivity.
  - intros r Hr. apply onAdd_frame, Hr.
  - intros Hw. apply onAdd_new_reference, Hw.
  - reflexivity.
Qed.

Lemma onAdd_appends_and_changes_no_array_witness :
  wf Samples.three_options /\
  deref (heap (onAdd "white" Samples.three_options))
        (options (onAdd "white" Samples.three_options))
  = ["red"; "green"; "blue"; "white"] /\
  options (onAdd "white" Samples.three_options)
  <> options Samples.three_options.
Proof.
  assert (Hw : wf Samples.three_options).
  { apply (run_wf [ValueChange OPTION; Add "red"; Add "green"; Add "blue"]
             (mount Samples.create ∅)).
    apply mount_wf. intros r. discriminate. }
  destruct (onAdd_appends_and_changes_no_array "white" Samples.three_options)
    as (Hl & _ & _ & _ & Hr & _).
  split; [exact Hw|]. split; [rewrite Hl; vm_compute; reflexivity|].
  apply Hr, Hw.
Defined.

(** X10.  Adding an option and then removing the entry at the last position
    gives back the former list. *)
Theorem onAdd_then_onRemove_last_restores (o : string) (w : World) :
  let l := deref (heap w) (options w) in
  let w' := onRemove (Z.of_nat (length l)) (onAdd o w) in
  deref (heap w') (options w') = l.
Proof.
  intros l w'. subst w'.
  rewrite onRemove_options_any, onAdd_options, splice_any. fold l.
  destruct (Z.ltb_spec (Z.of_nat (length l)) 0); [lia|].
  rewrite Nat2Z.id, (delete_middle l [] o). apply app_nil_r.
Qed.

(** X11.  [onRemove] removes at most one entry, whatever number it is
    given.  With an index at or after the end the list is left as it was;
    with a negative index the entry is counted from the end, and an index
    before the start removes the first entry. *)
Theorem onRemove_at_any_index (i : Z) (w : World) :
  let l := deref (heap w) (options w) in
  let w' := onRemove i w in
  let l' := deref (heap w') (options w') in
  l' = delete (Z.to_nat (if (i <? 0)%Z
                         then Z.max (Z.of_nat (length l) + i) 0
                         else i)) l /\
  length l - 1 <= length l' <= length l /\
  ((Z.of_nat (length l) <= i)%Z -> l' = l) /\
  ((- Z.of_nat (length l) <= i < 0)%Z ->
     l' = delete (Z.to_nat (Z.of_nat (length l) + i)) l) /\
  ((i < - Z.of_nat (length l))%Z -> l' = drop 1 l).
Proof.
  intros l w' l'. subst l' w'.
  rewrite onRemove_options_any, splice_any. fold l.
  split; [reflexivity|]. split; [|split; [|split]].
  - set (n := Z.to_nat _).
    destruct (Nat.lt_ge_cases n (length l)) as [Hn|Hn].
    + rewrite length_delete by (apply lookup_lt_is_Some; exact Hn). lia.
    + rewrite delete_ge by exact Hn. lia.
  - intros Hi. destruct (Z.ltb_spec i 0); [lia|].
    apply delete_ge. lia.
  - intros Hi. destruct (Z.ltb_spec i 0); [|lia].
    rewrite Z.max_l by lia. reflexivity.
  - intros Hi. destruct (Z.ltb_spec i 0); [|lia].
    rewrite Z.max_r by lia. destruct l; reflexivity.
Qed.

Lemma onRemove_at_any_index_witness :
  let l' i := deref (heap (onRemove i Samples.three_options))
                    (options (onRemove i Samples.three_options)) in
  (Z.of_nat 3 <= 7)%Z /\ l' 7%Z = ["red"; "green"; "blue"] /\
  (- Z.of_nat 3 <= -1 < 0)%Z /\ l' (-1)%Z = ["red"; "green"] /\
  (-9 < - Z.of_nat 3)%Z /\ l' (-9)%Z = ["green"; "blue"].
Proof.
  intros l'.
  assert (Hl : deref (heap Samples.three_options)
                     (options Samples.three_options)
               = ["red"; "green"; "blue"]) by (vm_compute; reflexivity).
  destruct (onRemove_at_any_index 7 Samples.three_options)
    as (_ & _ & Hout & _).
  destruct (onRemove_at_any_index (-1) Samples.three_options)
    as (_ & _ & _ & Hneg & _).
  destruct (onRemove_at_any_index (-9) Samples.three_options)
    as (_ & _ & _ & _ & Hfar).
  rewrite Hl in Hout, Hneg, Hfar.
  split; [lia|]. split; [apply Hout; simpl; lia|].
  split; [lia|]. split; [unfold l'; rewrite Hneg by (simpl; lia); reflexivity|].
  split; [lia|]. unfold l'. rewrite Hfar by (simpl; lia). reflexivity.
Defined.

(** X12.  The first removal changes the caller's array.  When the options
    come from the [options] prop, the state of the first render is that
    very array, so [onRemove] takes the entry out of the caller's array too;
    [onAdd] leaves it as it was.  After one addition or removal the state
    is an array of its own, and no later event changes the caller's
    array. *)
Theorem first_removal_changes_the_callers_array
    (props : Props.t) (heap0 : gmap nat (list string)) (r : nat)
    (i : Z) (o : string) (e : Event) (events : list Event) :
  Props.options props = Some r ->
  r ∈ dom heap0 ->
  (0 <= i < Z.of_nat (length (deref heap0 r)))%Z ->
  (forall val, e <> ValueChange val) ->
  let w := mount props heap0 in
  deref (heap (onRemove i w)) r = delete (Z.to_nat i) (deref heap0 r) /\
  deref (heap (onAdd o w)) r = deref heap0 r /\
  deref (heap (run events (handle e w))) r = deref (heap (handle e w)) r.
Proof.
  intros Hp Hr Hi He w.
  assert (Hw : heap w = heap0 /\ options w = r).
  { unfold w, mount. rewrite Hp. split; reflexivity. }
  destruct Hw as [Hh Ho].
  split; [|split].
  - destruct (onRemove_in_place i w) as [_ E].
    rewrite Ho, Hh in E. rewrite E. apply splice_one, Hi.
  - unfold deref. rewrite onAdd_frame by (rewrite Hh; exact Hr).
    rewrite Hh. reflexivity.
  - unfold deref. rewrite run_frame; [reflexivity| |].
    + apply handle_dom. rewrite Hh. exact Hr.
    + destruct e as [val|j|o']; cbn [handle].
      * exfalso. apply (He val). reflexivity.
      * intros E. symmetry in E. revert E.
        apply onRemove_new_reference. rewrite Hh. exact Hr.
      * intros E. symmetry in E. revert E.
        apply onAdd_new_reference. rewrite Hh. exact Hr.
Qed.

Lemma first_removal_changes_the_callers_array_witness :
  let w := mount MoreSamples.edit_options MoreSamples.caller_heap in
  deref MoreSamples.caller_heap 0 = ["red"; "green"; "blue"] /\
  deref (heap (onRemove 1 w)) 0 = ["red"; "blue"] /\
  deref (heap (onAdd "white" w)) 0 = ["red"; "green"; "blue"] /\
  deref (heap (run [Remove 0; Add "black"] (handle (Remove 1) w))) 0
  = ["red"; "blue"].
Proof.
  intros w.
  assert (Hr : 0 ∈ dom MoreSamples.caller_heap)
    by (apply elem_of_dom; eexists; vm_compute; reflexivity).
  assert (Hl : deref MoreSamples.caller_heap 0 = ["red"; "green"; "blue"])
    by (vm_compute; reflexivity).
  assert (Hi : (0 <= 1 < Z.of_nat (length (deref MoreSamples.caller_heap 0)))%Z)
    by (rewrite Hl; simpl; lia).
  assert (He : forall val, Remove 1 <> ValueChange val) by discriminate.
  destruct (first_removal_changes_the_callers_array
              MoreSamples.edit_options MoreSamples.caller_heap 0 1 "white"
              (Remove 1) [Remove 0; Add "black"] eq_refl Hr Hi He)
    as (H1 & H2 & H3).
  fold w in H1, H2, H3. rewrite Hl in H1, H2.
  split; [exact Hl|]. split; [exact H1|]. split; [exact H2|].
  rewrite H3. exact H1.
Defined.

(** Whatever events follow the first render, the state refers to an
    array of the store, and no array of the store is ever dropped. *)
Lemma state_stays_well_formed
    (props : Props.t) (heap0 : gmap nat (list string))
    (events : list Event) :
  (forall r, Props.options props = Some r -> r ∈ dom heap0) ->
  wf (run events (mount props heap0)) /\
  dom heap0 ⊆ dom (heap (run events (mount props heap0))).
Proof.
  intros Hp. split; [apply run_wf, mount_wf, Hp|].
  transitivity (dom (heap (mount props heap0))).
  - unfold mount. destruct (Props.options props); cbn [heap]; [done|].
    rewrite dom_insert_L. set_solver.
  - generalize (mount props heap0). induction events as [|e events IH];
      intros w; [done|].
    transitivity (dom (heap (handle e w))); [apply handle_dom|apply IH].
Qed.

(** X13.  Options that are added one after the other end up in the list in
    the order in which they were added, after the options that were
    there. *)
Theorem adding_in_turn_keeps_the_order (os : list string) (w : World) :
  let w' := run (map Add os) w in
  deref (heap w') (options w') = deref (heap w) (options w) ++ os /\
  selectedType w' = selectedType w.
Proof.
  revert w. induction os as [|o os IH]; intros w; cbn [map].
  - split; [rewrite app_nil_r|]; reflexivity.
  - change (run (Add o :: map Add os) w) with (run (map Add os) (onAdd o w)).
    destruct (IH (onAdd o w)) as [Hl Ht]. cbv zeta. rewrite Hl, Ht.
    rewrite onAdd_options, <- app_assoc. split; reflexivity.
Qed.

(** * Further facts about the rendered tree *)

Lemma append_cancel_r (s1 s2 t : string) : s1 +:+ t = s2 +:+ t -> s1 = s2.
Proof.
  assert (Hlen : forall s, String.length (s +:+ t)
                           = String.length s + String.length t).
  { induction s as [|a s IH]; simpl; [reflexivity|]. rewrite IH. reflexivity. }
  revert s2. induction s1 as [|a s1 IH]; intros [|b s2] H.
  - reflexivity.
  - apply (f_equal String.length) in H. rewrite !Hlen in H. simpl in H. lia.
  - apply (f_equal String.length) in H. rewrite !Hlen in H. simpl in H. lia.
  - simpl in H. injection H as -> H. f_equal. apply IH, H.
Qed.

#[global] Instance fields_options_inj : Inj (=) (=) Zorm.fields_options.
Proof.
  intros i j H. unfold Zorm.fields_options, Zorm.fields in H.
  apply (inj (String.app "options")) in H.
  apply (inj (String.app "[")) in H.
  apply append_cancel_r in H. apply (inj pretty) in H. exact H.
Qed.

Lemma fields_options_not_a_key i :
  ~ In (Zorm.fields_options i)
       ["name"; "type"; "required"; "active"; "helpText"; "organizationId"].
Proof.
  intros Hin. cbn [In] in Hin.
  destruct Hin as [H|[H|[H|[H|[H|[H|[]]]]]]]; discriminate H.
Qed.

Lemma option_names_NoDup (l : list string) :
  NoDup (imap (fun i (_ : string) => Zorm.fields_options i) l).
Proof.
  rewrite imap_seq_0. apply NoDup_fmap_2; [apply _|apply NoDup_seq].
Qed.

Section MoreFormFacts.

Variable FIELD_TYPE_NAME : list (string * string).
Variable zodFieldIsRequired : forall A, ZodType A -> bool.
Variables (props : Props.t) (env : Env) (w : World).

Abbreviation form := (CustomFieldForm FIELD_TYPE_NAME zodFieldIsRequired).

Lemma form_name_input :
  (fun e => (tag_of e, attr_of "error" e, attr_of "defaultValue" e))
    <$> by_name "name" (form props env w) =
  Some ("Input",
        error_attr (Zorm.errors (validation env) [Key "name"]),
        AStr (match Props.name props with
              | Some s => if truthy s then s else ""
              | None => ""
              end)).
Proof. unfold by_name. walk w env; reflexivity. Qed.

Lemma items_select_items :
  List.filter (fun e => String.eqb (tag_of e) "SelectItem")
    (flat_map elements (select_items FIELD_TYPE_NAME))
  = select_items FIELD_TYPE_NAME.
Proof.
  unfold select_items. generalize FIELD_TYPE_NAME at 2 4. intros l.
  induction l as [|kv l IH]; simpl; [reflexivity|]. rewrite IH. reflexivity.
Qed.

Lemma form_select_items :
  with_tag "SelectItem" (form props env w) = select_items FIELD_TYPE_NAME.
Proof.
  unfold with_tag. walk w env; rewrite ?items_select_items; reflexivity.
Qed.

End MoreFormFacts.

Lemma other_keys_not_name (fields : gmap string Value) :
  Forall (fun d => path d <> [Key "name"])
    (snd (Schema.at_key [] fields "helpText" shape.helpText)
     ++ snd (Schema.at_key [] fields "type" shape.type)
     ++ snd (Schema.at_key [] fields "required" shape.required)
     ++ snd (Schema.at_key [] fields "active" shape.active)
     ++ snd (Schema.at_key [] fields "organizationId" shape.organizationId)
     ++ snd (Schema.at_key [] fields "options" shape.options)).
Proof.
  unfold Schema.at_key. rewrite !Forall_app. repeat split.
  all: try (eapply Forall_impl; [apply local|];
            intros d Hd; cbn [app] in Hd; rewrite Hd; discriminate).
  eapply Forall_impl; [apply options_issues_paths|].
  intros d [Hd|[n Hd]]; cbn [app] in Hd; rewrite Hd; discriminate.
Qed.

(** * Further properties of the rendered form *)

(** X14.  After a validation of a submission whose name is a string of
    fewer than two code units, the name input is rendered with the message
    of the schema as its error, whatever the other fields are. *)
Theorem short_name_error_is_shown_on_the_name_input
    (errorMap : IssueData -> string)
    (FIELD_TYPE_NAME : list (string * string))
    (zodFieldIsRequired : forall A, ZodType A -> bool)
    (props : Props.t) (w : World)
    (state : NavigationState) (org : string)
    (fields : gmap string Value) (s : string) :
  fields !! "name" = Some (JString s) ->
  String.length s < 2 ->
  let env :=
    {| navigation_state := state;
       validation :=
         Some (safeParse errorMap NewCustomFieldFormSchema (JObject fields));
       organizationId := org |} in
  (fun e => (tag_of e, attr_of "error" e))
    <$> by_name "name"
          (CustomFieldForm FIELD_TYPE_NAME zodFieldIsRequired props env w)
  = Some ("Input", AStr "Name is required").
Proof.
  intros Hf Hs env.
  pose proof (form_name_input FIELD_TYPE_NAME zodFieldIsRequired props env w)
    as H.
  destruct (by_name "name" _) as [e|]; [|discriminate H].
  cbn [fmap option_fmap option_map] in *. injection H as Ht He _.
  rewrite Ht, He. do 2 f_equal.
  apply prop_defined in Hf; [|discriminate].
  assert (Hname : forall p,
            shape.name p (prop fields "name") =
            (DIRTY s,
             [ {| code := too_small 2; path := p;
                  message := Some "Name is required" |} ])).
  { intros p. rewrite Hf, name_parse.
    destruct (Nat.ltb_spec (String.length s) 2); [reflexivity|lia]. }
  unfold env. cbn [validation].
  rewrite safeParse_not_valid.
  - rewrite object_issues. unfold Schema.at_key at 1. rewrite Hname.
    reflexivity.
  - apply object_not_valid. left. unfold Schema.at_key. rewrite Hname.
    reflexivity.
Qed.

Lemma short_name_error_is_shown_on_the_name_input_witness :
  MoreSamples.short_name !! "name" = Some (JString "x") /\
  String.length "x" < 2 /\
  (fun e => (tag_of e, attr_of "error" e))
    <$> by_name "name"
          (Samples.form Samples.create
             (MoreSamples.validated MoreSamples.short_name)
             (mount Samples.create ∅))
  = Some ("Input", AStr "Name is required").
Proof.
  assert (Hf : MoreSamples.short_name !! "name" = Some (JString "x"))
    by (vm_compute; reflexivity).
  assert (Hs : String.length "x" < 2) by (simpl; lia).
  split; [exact Hf|]. split; [exact Hs|].
  apply (short_name_error_is_shown_on_the_name_input
           Samples.errorMap Samples.FIELD_TYPE_NAME Samples.zodFieldIsRequired
           Samples.create (mount Samples.create ∅) idle "org_1"
           MoreSamples.short_name "x" Hf Hs).
Defined.

(** X15.  The name input shows an error only for the name.  Before any
    validation, and after a validation in which the name was accepted, it is
    rendered without an error, whatever issues the other fields have. *)
Theorem name_input_shows_no_error_of_another_field
    (errorMap : IssueData -> string)
    (FIELD_TYPE_NAME : list (string * string))
    (zodFieldIsRequired : forall A, ZodType A -> bool)
    (props : Props.t) (w : World)
    (state : NavigationState) (org : string)
    (fields : gmap string Value) :
  accepts shape.name (prop fields "name") = true ->
  let env v :=
    {| navigation_state := state; validation := v; organizationId := org |} in
  let form := CustomFieldForm FIELD_TYPE_NAME zodFieldIsRequired props in
  attr_of "error" <$> by_name "name" (form (env None) w) = Some AUndef /\
  attr_of "error"
    <$> by_name "name"
          (form (env (Some (safeParse errorMap NewCustomFieldFormSchema
                              (JObject fields)))) w)
  = Some AUndef.
Proof.
  intros Ha env form.
  assert (Hget : forall v,
            attr_of "error" <$> by_name "name" (form (env v) w)
            = Some (error_attr (Zorm.errors v [Key "name"]))).
  { intros v.
    pose proof (form_name_input FIELD_TYPE_NAME zodFieldIsRequired props
                  (env v) w) as H.
    fold form in H. destruct (by_name "name" _) as [e|]; [|discriminate H].
    cbn [fmap option_fmap option_map] in *. injection H as _ He _.
    rewrite He. reflexivity. }
  rewrite !Hget. split; [reflexivity|]. do 2 f_equal.
  destruct (safeParse errorMap NewCustomFieldFormSchema (JObject fields))
    as [d|error] eqn:E; [reflexivity|].
  apply safeParse_failure_inv in E as [_ ->].
  unfold Zorm.errors. rewrite object_issues.
  apply accepts_steady in Ha as [x Hx]; [|apply _].
  unfold Schema.at_key at 1. rewrite Hx. cbn [snd app].
  rewrite find_None_Forall; [reflexivity|].
  apply Forall_map.
  eapply Forall_impl; [apply other_keys_not_name|].
  intros d Hd. cbn [makeIssue issue_path].
  apply bool_decide_eq_false. exact Hd.
Qed.

Lemma name_input_shows_no_error_of_another_field_witness :
  accepts shape.name (prop Samples.bad_type "name") = true /\
  (exists error,
     safeParse Samples.errorMap NewCustomFieldFormSchema
       (JObject Samples.bad_type) = Failure error) /\
  attr_of "error"
    <$> by_name "name"
          (Samples.form Samples.create
             (MoreSamples.validated Samples.bad_type)
             (mount Samples.create ∅))
  = Some AUndef.
Proof.
  assert (Ha : accepts shape.name (prop Samples.bad_type "name") = true)
    by (vm_compute; reflexivity).
  split; [exact Ha|]. split; [eexists; vm_compute; reflexivity|].
  apply (name_input_shows_no_error_of_another_field
           Samples.errorMap Samples.FIELD_TYPE_NAME Samples.zodFieldIsRequired
           Samples.create (mount Samples.create ∅) idle "org_1"
           Samples.bad_type Ha).
Defined.

(** X16.  No two elements of the form have the same field name, whatever the
    selected type and the options are: the hidden inputs of the options are
    named apart from each other and from the six fixed fields. *)
Theorem field_names_are_distinct
    (FIELD_TYPE_NAME : list (string * string))
    (zodFieldIsRequired : forall A, ZodType A -> bool)
    (props : Props.t) (env : Env) (w : World) :
  NoDup (map snd
           (named (CustomFieldForm FIELD_TYPE_NAME zodFieldIsRequired
                     props env w))).
Proof.
  rewrite form_named.
  assert (Hfixed : NoDup ["name"; "type"; "required"; "active"; "helpText";
                          "organizationId"]).
  { apply NoDup_ListNoDup. repeat constructor; cbn [In];
      intuition discriminate. }
  destruct (selectedType w); try exact Hfixed.
  rewrite !map_app. cbn [map snd app].
  change (map snd (imap (fun i (_ : string) =>
                           ("input", Zorm.fields_options i))
                        (deref (heap w) (options w))))
    with (snd <$> imap (fun i (_ : string) =>
                          ("input", Zorm.fields_options i))
                       (deref (heap w) (options w))).
  rewrite fmap_imap.
  change (fun n => snd ∘ (fun _ : string => ("input", Zorm.fields_options n)))
    with (fun n (_ : string) => Zorm.fields_options n).
  set (names := imap _ _).
  assert (Hn : NoDup names) by apply option_names_NoDup.
  assert (Hout : forall x, x ∈ names ->
            ~ In x ["name"; "type"; "required"; "active"; "helpText";
                    "organizationId"]).
  { intros x Hx. unfold names in Hx.
    apply elem_of_lookup_imap in Hx as (i & y & -> & _).
    apply fields_options_not_a_key. }
  apply NoDup_cons. split.
  { intros Hin. apply elem_of_cons in Hin as [Hin|Hin]; [discriminate|].
    apply elem_of_app in Hin as [Hin|Hin].
    - apply (Hout _ Hin). cbn; tauto.
    - apply list_elem_of_In in Hin. cbn in Hin. intuition discriminate. }
  apply NoDup_cons. split.
  { intros Hin. apply elem_of_app in Hin as [Hin|Hin].
    - apply (Hout _ Hin). cbn; tauto.
    - apply list_elem_of_In in Hin. cbn in Hin. intuition discriminate. }
  apply NoDup_app. split; [exact Hn|]. split.
  - intros x Hx Hin. apply (Hout _ Hx).
    apply list_elem_of_In in Hin. cbn in Hin. cbn. tauto.
  - apply NoDup_ListNoDup. repeat constructor; cbn [In];
      intuition discriminate.
Qed.

(** X17.  In the type OPTION, adding an option adds exactly one hidden
    field to the form: it comes after the fields of the options that were
    there, which are unchanged, and is named by the next index. *)
Theorem adding_an_option_adds_one_hidden_field
    (FIELD_TYPE_NAME : list (string * string))
    (zodFieldIsRequired : forall A, ZodType A -> bool)
    (props : Props.t) (env : Env) (w : World) (o : string) :
  selectedType w = OPTION ->
  let form := CustomFieldForm FIELD_TYPE_NAME zodFieldIsRequired props env in
  let l := deref (heap w) (options w) in
  hidden_fields (form w)
  = imap (fun i op => (Zorm.fields_options i, op)) l
    ++ [("organizationId", organizationId env)] /\
  hidden_fields (form (onAdd o w))
  = imap (fun i op => (Zorm.fields_options i, op)) l
    ++ [(Zorm.fields_options (length l), o)]
    ++ [("organizationId", organizationId env)].
Proof.
  intros Ht form l. unfold form. rewrite !form_hidden_fields.
  assert (Ht' : selectedType (onAdd o w) = OPTION) by exact Ht.
  rewrite Ht, Ht', onAdd_options. fold l. split; [reflexivity|].
  rewrite imap_app, <- app_assoc. cbn [imap app].
  rewrite Nat.add_0_r. reflexivity.
Qed.

Lemma adding_an_option_adds_one_hidden_field_witness :
  selectedType Samples.three_options = OPTION /\
  hidden_fields (Samples.form Samples.create (Samples.env idle)
                   (onAdd "white" Samples.three_options))
  = [("options[0]", "red"); ("options[1]", "green"); ("options[2]", "blue");
     ("options[3]", "white"); ("organizationId", "org_1")].
Proof.
  split; [reflexivity|].
  destruct (adding_an_option_adds_one_hidden_field
              Samples.FIELD_TYPE_NAME Samples.zodFieldIsRequired
              Samples.create (Samples.env idle) Samples.three_options "white"
              eq_refl) as [_ H].
  unfold Samples.form. rewrite H. vm_compute. reflexivity.
Defined.

(** X18.  Changing the selected type never discards the options.  With a
    type other than OPTION the form has no hidden field of an option, but
    the list is still in the state: selecting OPTION again renders the same
    hidden fields as before. *)
Theorem changing_the_type_keeps_the_options
    (FIELD_TYPE_NAME : list (string * string))
    (zodFieldIsRequired : forall A, ZodType A -> bool)
    (props : Props.t) (env : Env) (w : World) (t : CustomFieldType) :
  t <> OPTION ->
  let form := CustomFieldForm FIELD_TYPE_NAME zodFieldIsRequired props env in
  hidden_fields (form (setSelectedType t w))
  = [("organizationId", organizationId env)] /\
  deref (heap (setSelectedType t w)) (options (setSelectedType t w))
  = deref (heap w) (options w) /\
  hidden_fields (form (setSelectedType OPTION (setSelectedType t w)))
  = hidden_fields (form (setSelectedType OPTION w)).
Proof.
  intros Ht form. unfold form. rewrite !form_hidden_fields.
  cbn [setSelectedType selectedType heap options].
  split; [destruct t; (reflexivity || congruence)|]. split; reflexivity.
Qed.

Lemma changing_the_type_keeps_the_options_witness :
  DATE <> OPTION /\
  hidden_fields (Samples.form Samples.create (Samples.env idle)
                   (setSelectedType DATE Samples.three_options))
  = [("organizationId", "org_1")] /\
  hidden_fields (Samples.form Samples.create (Samples.env idle)
                   (setSelectedType OPTION
                      (setSelectedType DATE Samples.three_options)))
  = [("options[0]", "red"); ("options[1]", "green"); ("options[2]", "blue");
     ("organizationId", "org_1")].
Proof.
  assert (Hne : DATE <> OPTION) by discriminate.
  destruct (changing_the_type_keeps_the_options
              Samples.FIELD_TYPE_NAME Samples.zodFieldIsRequired
              Samples.create (Samples.env idle) Samples.three_options DATE Hne)
    as (H1 & _ & H2).
  split; [exact Hne|]. split; [exact H1|].
  unfold Samples.form. rewrite H2. vm_compute. reflexivity.
Defined.

(** X19.  The menu of the type select has one item for each key of
    [FIELD_TYPE_NAME], in the order of the keys, with the key as its value,
    whatever the state of the form is. *)
Theorem type_menu_lists_every_key
    (FIELD_TYPE_NAME : list (string * string))
    (zodFieldIsRequired : forall A, ZodType A -> bool)
    (props : Props.t) (env : Env) (w : World) :
  map (fun e => (attr_of "value" e, attr_of "key" e))
      (with_tag "SelectItem"
         (CustomFieldForm FIELD_TYPE_NAME zodFieldIsRequired props env w))
  = map (fun kv => (AStr (fst kv), AStr (fst kv))) FIELD_TYPE_NAME.
Proof.
  rewrite form_select_items. unfold select_items.
  rewrite map_map. reflexivity.
Qed.

(** X20.  The value that the type select is rendered with is always one that
    the schema of [type] accepts, and it parses back to the selected type;
    two selected types are never rendered with the same value. *)
Theorem rendered_type_parses_back_to_the_selected_type
    (FIELD_TYPE_NAME : list (string * string))
    (zodFieldIsRequired : forall A, ZodType A -> bool)
    (props : Props.t) (env : Env) (w : World) (p : list PathItem) :
  exists s,
    (fun e => (tag_of e, attr_of "defaultValue" e))
      <$> by_name "type"
            (CustomFieldForm FIELD_TYPE_NAME zodFieldIsRequired props env w)
    = Some ("Select", AStr s) /\
    shape.type p (JString s) = (OK (selectedType w), []) /\
    (forall t, CustomFieldTypes.value t = s -> t = selectedType w).
Proof.
  exists (CustomFieldTypes.value (selectedType w)).
  split; [apply form_type_select|]. split.
  - destruct (selectedType w); reflexivity.
  - intros t Ht. destruct t, (selectedType w); (reflexivity || discriminate).
Qed.
